(** * SafeZone web: alert gateway, device registry and broker session

    A shallow embedding of the three places where the application keeps
    state:

    - [server.js]: the two HTTP handlers in front of the [alerts] table;
    - [P1.tsx]: the device list and its [Notify] handler;
    - [P2.tsx]: the map view, its broker session, the alert handler, the
      projection of the registry to map items and the PTZ publisher.

    Handlers are functions from a state (and an input) to a new state and
    the effects they request (publishes, HTTP calls, toasts, console
    output).  The broker, the timer and the user are the environment: they
    choose which handler runs next. *)

From Stdlib Require Import QArith_base Qreduction Qcanon Ascii.
From stdpp Require Import gmap strings list sorting pretty.

Local Open Scope string_scope.
Local Open Scope list_scope.
Local Open Scope nat_scope.

(** ** JavaScript values *)

Module JS.

(** A JavaScript number: the two infinities, NaN, or a finite value.  Every
    finite double is a rational; [-0] is identified with [0], which no
    operation used here can tell apart ([SameValueZero], [===], [!x],
    [String(x)] and [Number.isFinite] all agree on them). *)
Inductive number : Type :=
  | NaN
  | Infinity (negative : bool)
  | Fin (q : Qc).

#[global] Instance number_eq_dec : EqDecision number.
Proof. solve_decision. Defined.

#[global] Instance number_countable : Countable number.
Proof.
  refine (inj_countable'
    (λ n, match n with
          | NaN => inl None
          | Infinity b => inl (Some b)
          | Fin q => inr q
          end)
    (λ s, match s with
          | inl None => NaN
          | inl (Some b) => Infinity b
          | inr q => Fin q
          end) _).
  by intros [].
Defined.

Definition int (z : Z) : number := Fin (Q2Qc (inject_Z z)).
Definition of_nat (n : nat) : number := int (Z.of_nat n).

(** [Number.isFinite(n)] and [Number.isNaN(n)] on a number. *)
Definition isFinite (n : number) : bool :=
  match n with Fin _ => true | _ => false end.
Definition isNaN (n : number) : bool :=
  match n with NaN => true | _ => false end.

(** [a < b] on numbers: false as soon as one side is NaN. *)
Definition num_lt (a b : number) : bool :=
  match a, b with
  | NaN, _ | _, NaN => false
  | Infinity true, Infinity true => false
  | Infinity true, _ => true
  | _, Infinity true => false
  | Infinity false, _ => false
  | _, Infinity false => true
  | Fin x, Fin y => bool_decide (x < y)%Qc
  end.

(** [a === b] on numbers, [SameValueZero] but for NaN. *)
Definition num_strict_eq (a b : number) : bool :=
  match a with
  | NaN => false
  | _ => bool_decide (a = b)
  end.

(** What [JSON.parse] can return, plus [undefined] for absent properties.
    An object is the list of its own properties, each key once. *)
#[warnings="-register-all"]
Inductive jsval : Type :=
  | JUndef
  | JNull
  | JBool (b : bool)
  | JNum (n : number)
  | JStr (s : string)
  | JArr (elems : list jsval)
  | JObj (props : list (string * jsval)).

(** What the language leaves to the engine: the numeric value of a string
    literal ([StringToNumber]), the decimal text of a number
    ([Number::toString]) and the sequence of 16-bit code units a string is
    made of, each unit as a text of its own ([CodeUnits]): [s.length] counts
    the units and [s[i]] is the unit at index [i]; the empty string, and no
    other, has none. *)
Class Runtime := {
  StringToNumber : string → number;
  NumberToString : number → string;
  CodeUnits : string → list string;
  CodeUnits_nil s : CodeUnits s = [] ↔ s = "";
}.

Definition join (sep : string) (parts : list string) : string :=
  match parts with
  | [] => ""
  | p :: ps => foldl (λ acc x, acc +:+ sep +:+ x) p ps
  end.

Fixpoint assoc (k : string) (props : list (string * jsval)) : jsval :=
  match props with
  | [] => JUndef
  | (k', v) :: rest => if String.eqb k k' then v else assoc k rest
  end.

(** Whether the object has a property of its own under the name. *)
Fixpoint has_own (k : string) (props : list (string * jsval)) : bool :=
  match props with
  | [] => false
  | (k', _) :: rest => String.eqb k k' || has_own k rest
  end.

Section conversions.
Context {rt : Runtime}.

(** [String(v)], [None] when it throws.  The values are those of parsed JSON
    and of query strings, so no property is callable: an object with a
    [toString] of its own hides [Object.prototype.toString], the conversion
    finds no method that yields a primitive and throws a [TypeError]; without
    one the text is ["[object Object]"].  An array joins the texts of its
    elements, the empty text for [null] and [undefined], and throws when an
    element does. *)
Fixpoint to_str (v : jsval) : option string :=
  match v with
  | JUndef => Some "undefined"
  | JNull => Some "null"
  | JBool true => Some "true"
  | JBool false => Some "false"
  | JNum n => Some (NumberToString n)
  | JStr s => Some s
  | JArr l =>
      join "," <$>
        (fix elements (l : list jsval) : option (list string) :=
           match l with
           | [] => Some []
           | e :: l' =>
               s ← match e with
                   | JUndef | JNull => Some ""
                   | _ => to_str e
                   end;
               ss ← elements l';
               Some (s :: ss)
           end) l
  | JObj props => if has_own "toString" props then None else Some "[object Object]"
  end.

(** [Number(v)], [None] when it throws: an object or array is first turned
    into a primitive, through [valueOf] (which gives the object back, or is a
    property that is not callable) and then [toString] as in [String(v)]. *)
Definition to_num (v : jsval) : option number :=
  match v with
  | JUndef => Some NaN
  | JNull => Some (int 0)
  | JBool true => Some (int 1)
  | JBool false => Some (int 0)
  | JNum n => Some n
  | JStr s => Some (StringToNumber s)
  | JArr _ | JObj _ => StringToNumber <$> to_str v
  end.

(** [v.length]: arrays and strings have one (a string counts its code units),
    an object only if it has such a property, the other primitives do not. *)
Definition js_length (v : jsval) : jsval :=
  match v with
  | JArr l => JNum (of_nat (length l))
  | JStr s => JNum (of_nat (length (CodeUnits s)))
  | JObj props => assoc "length" props
  | _ => JUndef
  end.

(** [v[i]] for an index [i]; on a string, the code unit at that index. *)
Definition js_index (v : jsval) (i : nat) : jsval :=
  match v with
  | JArr l => default JUndef (l !! i)
  | JStr s => match CodeUnits s !! i with
              | Some u => JStr u
              | None => JUndef
              end
  | JObj props => assoc (pretty i) props
  | _ => JUndef
  end.
End conversions.

(** [!!v]. *)
Definition truthy (v : jsval) : bool :=
  match v with
  | JUndef | JNull => false
  | JBool b => b
  | JNum NaN => false
  | JNum (Fin q) => negb (bool_decide (q = 0%Qc))
  | JNum (Infinity _) => true
  | JStr s => negb (String.eqb s "")
  | JArr _ | JObj _ => true
  end.

(** [v == null]: the two values without properties. *)
Definition is_nullish (v : jsval) : bool :=
  match v with
  | JUndef | JNull => true
  | _ => false
  end.

(** [a ?? b]. *)
Definition nullish (a b : jsval) : jsval :=
  match a with
  | JUndef | JNull => b
  | _ => a
  end.

(** [v.name] for the property names the handlers read ([cmd], [id], [idx],
    [status], [battery], [lat], [lng], [recent_obj]): none of them is an
    index, [length] or a prototype property, so only objects carry them.
    Reading a property of [null] or [undefined] throws: [None]. *)
Definition get_prop (v : jsval) (name : string) : option jsval :=
  match v with
  | JUndef | JNull => None
  | JObj props => Some (assoc name props)
  | _ => Some JUndef
  end.

(** [v === "lit"]. *)
Definition is_string (v : jsval) (lit : string) : bool :=
  match v with
  | JStr s => String.eqb s lit
  | _ => false
  end.

End JS.
Export JS.

(** ** The persistence gateway ([server.js]) *)

Module Gateway.

(** A row of the [alerts] table, as [GET /api/alerts/recent] returns it
    ([DBLogData] in [P2.tsx]). *)
Record DBLogData : Type := {
  device_id : number;
  event_time : string;
  detected_object : string;
  base64_image : string;
}.

#[global] Instance DBLogData_eq_dec : EqDecision DBLogData.
Proof. solve_decision. Defined.

(** The table: its rows, oldest insertion first. *)
Abbreviation table := (list DBLogData).

Definition of_device (id : number) (r : DBLogData) : Prop := device_id r = id.

#[global] Instance of_device_dec id r : Decision (of_device id r).
Proof. unfold of_device. apply _. Defined.

(** Modelled from the spec: the [alerts] table and the storage engine behind
    [pool.query], neither of which is part of the sources.  The engine may
    reject any query ([None], the [catch] branch of the handlers).  An accepted
    [INSERT] of a number and three strings appends exactly that row; an
    accepted [SELECT ... WHERE device_id = $1 ORDER BY event_time DESC
    LIMIT 10] returns the first ten rows of some descending arrangement of
    that device's rows, ties in the order the engine likes. *)
Class Storage := {
  time_le : relation string;
  time_le_dec :: RelDecision time_le;
  insert_alert : table → jsval → jsval → jsval → jsval → option table;
  select_recent : table → number → option table;
  insert_alert_appends t n tm obj img t' :
    insert_alert t (JNum n) (JStr tm) (JStr obj) (JStr img) = Some t' →
    t' = t ++ [Build_DBLogData n tm obj img];
  select_recent_sorted t id rows :
    select_recent t id = Some rows →
    ∃ arranged,
      arranged ≡ₚ filter (of_device id) t ∧
      StronglySorted (λ a b, time_le (event_time b) (event_time a)) arranged ∧
      rows = take 10 arranged;
}.

Inductive body : Type :=
  | Message (message : string)
  | Error (error : string)
  | Rows (rows : table).

Record response : Type := { status : nat; sent : body }.

Section handlers.
Context {rt : Runtime} {db : Storage}.

(** Newest first, in the order of the [event_time] column. *)
Definition descending (a b : DBLogData) : Prop :=
  time_le (event_time b) (event_time a).

(** [app.post('/api/save-alert')], on the parsed request body.  [None]: the
    handler throws outside its [try] and sends nothing, which happens when the
    destructuring of [req.body] throws and when the comparison
    [recent_obj.length < 3] cannot turn the length into a number.  Inside the
    [try], after an accepted [INSERT], the log line interpolates [id] and
    [event_time]: when that throws, the [catch] answers 500 although the row
    is stored. *)
Definition save_alert (req_body : jsval) (t : table) : option (response * table) :=
  id ← get_prop req_body "id";
  recent_obj ← get_prop req_body "recent_obj";
  if negb (truthy recent_obj) then
    Some ({| status := 400; sent := Message "Invalid payload structure." |}, t)
  else
    len ← to_num (js_length recent_obj);
    if num_lt len (int 3) then
      Some ({| status := 400; sent := Message "Invalid payload structure." |}, t)
    else
      let event_time := js_index recent_obj 0 in
      let detected_object := js_index recent_obj 1 in
      let base64_image := js_index recent_obj 2 in
      match insert_alert t id event_time detected_object base64_image with
      | Some t' =>
          match to_str id, to_str event_time with
          | Some _, Some _ =>
              Some ({| status := 200; sent := Message "Alert saved successfully." |}, t')
          | _, _ =>
              Some ({| status := 500; sent := Error "Failed to save alert." |}, t')
          end
      | None =>
          Some ({| status := 500; sent := Error "Failed to save alert." |}, t)
      end.

(** [app.get('/api/alerts/recent')], on [req.query.device_id].  The whole
    body is inside the [try]: a [Number(...)] that throws is answered by the
    [catch], like a rejected query. *)
Definition recent_alerts (device_id_param : jsval) (t : table) : response * table :=
  match to_num device_id_param with
  | None => ({| status := 500; sent := Error "Failed to retrieve alerts." |}, t)
  | Some deviceId =>
      if negb (isFinite deviceId) then
        ({| status := 400; sent := Error "device_id is required" |}, t)
      else
        match select_recent t deviceId with
        | Some rows => ({| status := 200; sent := Rows rows |}, t)
        | None => ({| status := 500; sent := Error "Failed to retrieve alerts." |}, t)
        end
  end.
End handlers.

End Gateway.

(** ** The device list ([P1.tsx]) *)

Module P1.

Record Item : Type := {
  id : number;
  name : string;
  status : string;
  statusDot : string;
  battery : string;
  lat : option number;
  lng : option number;
}.

Definition mapStatus (status : jsval) : string * string :=
  if is_string status "GOOD" then ("정상", "green")
  else if is_string status "BAD" then ("고장", "red")
  else ("꺼짐", "gray").

(** [Notification.permission]. *)
Inductive permission : Type := granted | denied | prompt.

Inductive effect : Type :=
  | NewDeviceToast (idx : number) (status dot : string) (battery : jsval)
  | ShowNotification (idx : number)
  | RequestPermission
  | ToastSuccess (idx : number)
  | ConsoleWarn (what : string)
  | ConsoleError (what : string).

(** [items] is the React state, [itemsRef] the mirror the message handler
    reads; the mirror catches up when the component commits. *)
Record State : Type := {
  items : list Item;
  itemsRef : list Item;
}.

Definition set_items (f : list Item → list Item) (st : State) : State :=
  {| items := f (items st); itemsRef := itemsRef st |}.

Definition commit (st : State) : State :=
  {| items := items st; itemsRef := items st |}.

(** Everything but the status and its dot. *)
Definition same_but_status (a b : Item) : Prop :=
  id a = id b ∧ name a = name b ∧ battery a = battery b ∧
  lat a = lat b ∧ lng a = lng b.

(** The item written for [it] by a status update naming [idx]. *)
Definition with_status (idx : number) (status dot : string) (it : Item) : Item :=
  if num_strict_eq (id it) idx then
    {| id := id it; name := name it; status := status; statusDot := dot;
       battery := battery it; lat := lat it; lng := lng it |}
  else it.

Section handlers.
Context {rt : Runtime}.

(** The index a [Notify] message names: [Number(m.idx ?? m.id)], [None] when
    the conversion throws. *)
Definition named (m_idx m_id : jsval) : option number :=
  to_num (nullish m_idx m_id).

(** Whether the message names the item. *)
Definition names (idx : option number) (it : Item) : bool :=
  match idx with
  | Some n => num_strict_eq (id it) n
  | None => false
  end.

(** [client.on("message")], on the topic and on what [JSON.parse] makes of the
    payload ([None] when it throws).  Whatever throws inside the handler ends
    in its [catch].  The toast of a new device keeps [m.battery ?? ""] as it
    is: the text is made when the button is pressed. *)
Definition on_message (perm : permission) (topic : string)
    (payload : option jsval) (st : State) : State * list effect :=
  if negb (String.eqb topic "Notify") then (st, [])
  else
    match payload with
    | None => (st, [ConsoleError "Notify parse error"])
    | Some m =>
        match get_prop m "status", get_prop m "idx", get_prop m "id",
              get_prop m "cmd", get_prop m "battery" with
        | Some m_status, Some m_idx, Some m_id, Some m_cmd, Some m_battery =>
            let '(status, dot) := mapStatus m_status in
            match named m_idx m_id with
            | None => (st, [ConsoleError "Notify parse error"])
            | Some idx =>
                if isNaN idx then (st, [ConsoleWarn "Invalid device id:"])
                else if is_string m_cmd "new_device" then
                  if existsb (λ it, num_strict_eq (id it) idx) (itemsRef st) then (st, [])
                  else (st, [NewDeviceToast idx status dot (nullish m_battery (JStr ""))])
                else if is_string m_cmd "status_update" then
                  (set_items (map (with_status idx status dot)) st, [])
                else if is_string m_cmd "alert" then
                  match perm with
                  | granted => (st, [ShowNotification idx; ToastSuccess idx])
                  | prompt => (st, [RequestPermission; ToastSuccess idx])
                  | denied => (st, [ToastSuccess idx])
                  end
                else (st, [])
            end
        | _, _, _, _, _ => (st, [ConsoleError "Notify parse error"])
        end
    end.
End handlers.

(** The updater of the "add now" button of a new-device toast, for the text
    [battery] that [String(m.battery ?? "")] gives. *)
Definition accept_new_device (idx : number) (status dot battery : string)
    (st : State) : State :=
  set_items (λ prev,
    prev ++ [{| id := idx; name := pretty (length prev + 1) +:+ "번 말뚝";
                status := status; statusDot := dot; battery := battery;
                lat := None; lng := None |}]) st.

Section add_now.
Context {rt : Runtime}.

(** The "add now" button of the toast [NewDeviceToast idx status dot battery];
    [None] when [String(...)] throws in the updater and nothing is added. *)
Definition on_add_now (idx : number) (status dot : string) (battery : jsval)
    (st : State) : option State :=
  text ← to_str battery;
  Some (accept_new_device idx status dot text st).
End add_now.

(** [handleDelete] for the selected item. *)
Definition handleDelete (selected : Item) (st : State) : State :=
  set_items (filter (λ i, num_strict_eq (id i) (id selected) = false)) st.

(** *** Stored items *)

(** The test of [loadItems] and [safeItems]: a truthy value whose [id] is a
    number other than NaN. *)
Definition has_id (it : jsval) : bool :=
  truthy it &&
  match get_prop it "id" with
  | Some (JNum n) => negb (isNaN n)
  | _ => false
  end.

(** [loadItems], on what [JSON.parse] makes of the stored text; [None] when
    nothing is stored or the text does not parse.  Anything but an array has
    no [filter] to call, or is falsy: both end in the empty list. *)
Definition loadItems (stored : option jsval) : list jsval :=
  match stored with
  | Some (JArr parsed) => filter (λ it, has_id it = true) parsed
  | _ => []
  end.

(** *** Double tap on a row *)

Definition DOUBLE_TAP_INTERVAL : Z := 300.

(** [lastTapRef.current], when truthy. *)
Definition last_tap (lastTapRef : option Z) : option Z :=
  match lastTapRef with
  | Some t => if (t =? 0)%Z then None else Some t
  | None => None
  end.

(** [onClick] of a row at time [now]: the new [lastTapRef.current], and
    whether the menu is opened. *)
Definition onClick (now : Z) (lastTapRef : option Z) : option Z * bool :=
  match last_tap lastTapRef with
  | Some t =>
      if (now - t <? DOUBLE_TAP_INTERVAL)%Z then (None, true) else (Some now, false)
  | None => (Some now, false)
  end.

(** The callback of the timer a first tap sets, running at time [now]. *)
Definition on_tap_timeout (now : Z) (lastTapRef : option Z) : option Z :=
  match last_tap lastTapRef with
  | Some t => if (DOUBLE_TAP_INTERVAL <=? now - t)%Z then None else lastTapRef
  | None => lastTapRef
  end.

Inductive tap_event : Type :=
  | Tap (now : Z)
  | TapTimeout (now : Z).

Definition tap_time (e : tap_event) : Z :=
  match e with Tap now | TapTimeout now => now end.

Definition is_tap (e : tap_event) : bool :=
  match e with Tap _ => true | TapTimeout _ => false end.

(** For a run of taps and timer callbacks on one row: whether each tap opens
    the menu, in order. *)
Fixpoint menus (evs : list tap_event) (lastTapRef : option Z) : list bool :=
  match evs with
  | [] => []
  | Tap now :: rest =>
      let '(ref, opened) := onClick now lastTapRef in opened :: menus rest ref
  | TapTimeout now :: rest => menus rest (on_tap_timeout now lastTapRef)
  end.

(** A clock that does not run backwards: every event of the run comes at or
    after the one before, the first at or after [since]. *)
Fixpoint clock (since : Z) (evs : list tap_event) : Prop :=
  match evs with
  | [] => True
  | e :: rest => (since ≤ tap_time e)%Z ∧ clock (tap_time e) rest
  end.

(** Taps that each come less than the interval after the one before, the
    first after [prev]; no tap at time [0]. *)
Fixpoint quick (prev : Z) (taps : list Z) : Prop :=
  match taps with
  | [] => True
  | t :: rest => t ≠ 0%Z ∧ (t - prev < DOUBLE_TAP_INTERVAL)%Z ∧ quick t rest
  end.

Definition burst (taps : list Z) : Prop :=
  match taps with
  | [] => True
  | t :: rest => t ≠ 0%Z ∧ quick t rest
  end.

(** [b], [negb b], [b], ... *)
Fixpoint alternate (b : bool) (n : nat) : list bool :=
  match n with
  | O => []
  | S n => b :: alternate (negb b) n
  end.

End P1.

(** ** The map view ([P2.tsx]) *)

Module P2.

(** *** The registry *)

(** One raw device record, as the broker sends it. *)
Definition raw_device (battery temp humi status lat lng : string)
    (recent_obj : list string) : jsval :=
  JObj [("battery", JStr battery); ("temp", JStr temp); ("humi", JStr humi);
        ("status", JStr status); ("lat", JStr lat); ("lng", JStr lng);
        ("recent_obj", JArr (JStr <$> recent_obj))].

(** The registry [rawMap]: the own properties of the object in the React
    state, by key. *)
Abbreviation RawDeviceMap := (gmap string jsval).

Definition FALLBACK_RAW : RawDeviceMap :=
  list_to_map [
    ("1", raw_device "40" "24.6" "70" "GOOD" "37.868770" "127.738360"
            ["2025-05-01T23:21:52"; "hog";
             "https://m.health.chosun.com/site/data/img_dir/2022/05/24/2022052402229_0.jpg"]);
    ("2", raw_device "40" "24.6" "70" "BAD" "37.869436" "127.742939"
            ["2025-05-01T23:21:52"; "hog";
             "https://thumb.mt.co.kr/06/2024/02/2024021621113371189_1.jpg/dims/optimize/"]);
    ("3", raw_device "40" "24.6" "70" "OFF" "37.869562" "127.742999"
            ["2025-05-01T23:21:52"; "hog";
             "https://newsimg.hankookilbo.com/2020/04/24/202004241244319174_1.jpg"]);
    ("4", raw_device "20" "24.6" "70" "BAD" "37.869501" "127.743001"
            ["2025-05-01T23:21:52"; "hog";
             "https://newsimg.hankookilbo.com/2020/04/24/202004241244319174_1.jpg"])
  ].

Definition USER_UUID : string := "AA-BB-CC-DD-EE-FF".

(** [{ ...props, k: v }]. *)
Fixpoint set_prop (k : string) (v : jsval) (props : list (string * jsval))
    : list (string * jsval) :=
  match props with
  | [] => [(k, v)]
  | (k', v') :: rest =>
      if String.eqb k k' then (k, v) :: rest else (k', v') :: set_prop k v rest
  end.

(** [Object.keys(m).length === 0]. *)
Definition no_keys (m : RawDeviceMap) : bool := Nat.eqb (size m) 0.

Section registry.
Context {rt : Runtime}.

(** The own enumerable properties of a value, in the order [{...v}] copies
    them; a string has its code units, by index. *)
Definition spread (v : jsval) : list (string * jsval) :=
  match v with
  | JObj props => props
  | JArr l => imap (λ i e, (pretty i, e)) l
  | JStr s => imap (λ i u, (pretty i, JStr u)) (CodeUnits s)
  | _ => []
  end.

(** What [setRawMap(parsed)] stores for a full-table response. *)
Definition own_props (parsed : jsval) : RawDeviceMap := list_to_map (spread parsed).

(** The updater of the alert branch: replace [recent_obj] of the device under
    [key], if the registry has a record there. *)
Definition set_recent (key : string) (recentArr : jsval) (prev : RawDeviceMap)
    : RawDeviceMap :=
  match prev !! key with
  | Some cur =>
      if truthy cur then <[key := JObj (set_prop "recent_obj" recentArr (spread cur))]> prev
      else prev
  | None => prev
  end.
End registry.

(** *** Map items *)

Record Recent : Type := { time : string; target : string; image : string }.

Record Item : Type := {
  id : number;
  name : string;
  status : string;
  statusDot : string;
  battery : string;
  lat : number;
  lng : number;
  recent : option Recent;
}.

Definition mapStatus (s : jsval) : string * string :=
  if is_string s "GOOD" then ("정상", "green")
  else if is_string s "BAD" then ("고장", "red")
  else ("꺼짐", "gray").

(** [a - b] on numbers.  On finite values the difference is exact here; a
    double difference is rounded, but never across zero, and only its sign is
    used. *)
Definition num_sub (a b : number) : number :=
  match a, b with
  | NaN, _ | _, NaN => NaN
  | Infinity s, Infinity s' => if bool_decide (s = s') then NaN else Infinity s
  | Infinity s, Fin _ => Infinity s
  | Fin _, Infinity s => Infinity (negb s)
  | Fin x, Fin y => Fin (x - y)
  end.

(** The comparator of [out.sort((a, b) => a.id - b.id)] keeps [a] before [b]
    unless the difference is positive. *)
Definition by_id (a b : Item) : Prop := num_lt (int 0) (num_sub (id a) (id b)) = false.

#[global] Instance by_id_dec : RelDecision by_id.
Proof. intros a b. unfold by_id. apply _. Defined.

Section items.
Context {rt : Runtime}.

(** [Array.isArray(a) && a.length >= 3 ? [String(a[0]), String(a[1]),
    String(a[2])] : undefined]: [None] when one of the three conversions
    throws, [Some None] for [undefined]. *)
Definition three_strings (a : jsval) : option (option (string * string * string)) :=
  match a with
  | JArr (x :: y :: z :: _) =>
      t ← to_str x;
      o ← to_str y;
      i ← to_str z;
      Some (Some (t, o, i))
  | _ => Some None
  end.

(** Both coordinates of a record are finite once converted by [Number]. *)
Definition finite_position (d : jsval) : Prop :=
  ∃ d_lat d_lng lat lng,
    get_prop d "lat" = Some d_lat ∧ get_prop d "lng" = Some d_lng ∧
    to_num d_lat = Some lat ∧ to_num d_lng = Some lng ∧
    isFinite lat = true ∧ isFinite lng = true.

(** What makes a turn of the loop throw on the record [d]: the record is
    [null] or [undefined]; or [Number] throws on a coordinate; or, at a
    finite position, [String] throws on one of the first three elements of
    the detection or on the battery. *)
Definition unreadable (d : jsval) : Prop :=
  is_nullish d = true ∨
  (∃ v, (get_prop d "lat" = Some v ∨ get_prop d "lng" = Some v) ∧ to_num v = None) ∨
  (finite_position d ∧
   ((∃ v, get_prop d "recent_obj" = Some v ∧ three_strings v = None) ∨
    (∃ v, get_prop d "battery" = Some v ∧ to_str (nullish v (JStr "")) = None))).

(** One turn of the loop over [Object.keys(rawMap)]: the items pushed for
    [key], or [None] when the turn throws: reading a property of [null], or a
    conversion by [Number] or [String] that throws.  The key is a string and
    the id a number, which always convert. *)
Definition push_item (idSet : gset number) (entry : string * jsval)
    : option (list Item) :=
  let '(key, d) := entry in
  let numId := StringToNumber key in
  if bool_decide (numId ∈ idSet) then
    d_lat ← get_prop d "lat";
    lat ← to_num d_lat;
    d_lng ← get_prop d "lng";
    lng ← to_num d_lng;
    if isFinite lat && isFinite lng then
      d_status ← get_prop d "status";
      let '(status, dot) := mapStatus d_status in
      d_recent ← get_prop d "recent_obj";
      recent ← three_strings d_recent;
      d_battery ← get_prop d "battery";
      battery ← to_str (nullish d_battery (JStr ""));
      Some [{| id := numId;
               name := NumberToString numId +:+ "번 말뚝";
               status := status;
               statusDot := dot;
               battery := battery;
               lat := lat;
               lng := lng;
               recent := (λ '(t, o, i), {| time := t; target := o; image := i |})
                           <$> recent |}]
    else Some []
  else Some [].

(** The memo [items]: the registry restricted to the user's ids, sorted by
    id.  [Object.keys] is taken in the order of [map_to_list]; the order
    only shows between items of equal id. *)
Definition items (rawMap : RawDeviceMap) (ids : list number) : option (list Item) :=
  let idSet : gset number := list_to_set ids in
  out ← mapM (push_item idSet) (map_to_list rawMap);
  Some (merge_sort by_id (mjoin out)).
End items.

(** *** The view and its broker session *)

(** The React state of the view ([rawMap], [alertedIds], [connected],
    [cctvOpen], [currentId]), the ref [clientRef], and what the session effect
    keeps in its closure: [didConnect], whether [fallbackTimer] is still
    pending, and [effectRawMap], the [rawMap] of the render that started the
    effect.  [pendingSaves] counts the save-alert requests not yet settled;
    [mounted] falls when the view is left. *)
Record State : Type := {
  rawMap : RawDeviceMap;
  alertedIds : gset number;
  connected : bool;
  cctvOpen : bool;
  currentId : option number;
  ids : list number;
  clientRef : bool;
  didConnect : bool;
  fallbackTimer : bool;
  effectRawMap : RawDeviceMap;
  pendingSaves : nat;
  mounted : bool;
}.

Definition setRawMap (f : RawDeviceMap → RawDeviceMap) (st : State) : State :=
  {| rawMap := f (rawMap st); alertedIds := alertedIds st; connected := connected st;
     cctvOpen := cctvOpen st; currentId := currentId st; ids := ids st;
     clientRef := clientRef st; didConnect := didConnect st;
     fallbackTimer := fallbackTimer st; effectRawMap := effectRawMap st;
     pendingSaves := pendingSaves st; mounted := mounted st |}.

Definition setAlertedIds (f : gset number → gset number) (st : State) : State :=
  {| rawMap := rawMap st; alertedIds := f (alertedIds st); connected := connected st;
     cctvOpen := cctvOpen st; currentId := currentId st; ids := ids st;
     clientRef := clientRef st; didConnect := didConnect st;
     fallbackTimer := fallbackTimer st; effectRawMap := effectRawMap st;
     pendingSaves := pendingSaves st; mounted := mounted st |}.

Definition setConnected (b : bool) (st : State) : State :=
  {| rawMap := rawMap st; alertedIds := alertedIds st; connected := b;
     cctvOpen := cctvOpen st; currentId := currentId st; ids := ids st;
     clientRef := clientRef st; didConnect := didConnect st;
     fallbackTimer := fallbackTimer st; effectRawMap := effectRawMap st;
     pendingSaves := pendingSaves st; mounted := mounted st |}.

Definition setCctvOpen (b : bool) (st : State) : State :=
  {| rawMap := rawMap st; alertedIds := alertedIds st; connected := connected st;
     cctvOpen := b; currentId := currentId st; ids := ids st;
     clientRef := clientRef st; didConnect := didConnect st;
     fallbackTimer := fallbackTimer st; effectRawMap := effectRawMap st;
     pendingSaves := pendingSaves st; mounted := mounted st |}.

Definition setCurrentId (c : option number) (st : State) : State :=
  {| rawMap := rawMap st; alertedIds := alertedIds st; connected := connected st;
     cctvOpen := cctvOpen st; currentId := c; ids := ids st;
     clientRef := clientRef st; didConnect := didConnect st;
     fallbackTimer := fallbackTimer st; effectRawMap := effectRawMap st;
     pendingSaves := pendingSaves st; mounted := mounted st |}.

(** The three writes of the session closure: [didConnect = true], clearing (or
    firing) the timer, and the bookkeeping of requests in flight. *)
Definition set_didConnect (st : State) : State :=
  {| rawMap := rawMap st; alertedIds := alertedIds st; connected := connected st;
     cctvOpen := cctvOpen st; currentId := currentId st; ids := ids st;
     clientRef := clientRef st; didConnect := true;
     fallbackTimer := fallbackTimer st; effectRawMap := effectRawMap st;
     pendingSaves := pendingSaves st; mounted := mounted st |}.

Definition clearTimeout (st : State) : State :=
  {| rawMap := rawMap st; alertedIds := alertedIds st; connected := connected st;
     cctvOpen := cctvOpen st; currentId := currentId st; ids := ids st;
     clientRef := clientRef st; didConnect := didConnect st;
     fallbackTimer := false; effectRawMap := effectRawMap st;
     pendingSaves := pendingSaves st; mounted := mounted st |}.

Definition set_pendingSaves (f : nat → nat) (st : State) : State :=
  {| rawMap := rawMap st; alertedIds := alertedIds st; connected := connected st;
     cctvOpen := cctvOpen st; currentId := currentId st; ids := ids st;
     clientRef := clientRef st; didConnect := didConnect st;
     fallbackTimer := fallbackTimer st; effectRawMap := effectRawMap st;
     pendingSaves := f (pendingSaves st); mounted := mounted st |}.

(** The cleanup of the session effect, with the view gone. *)
Definition teardown (st : State) : State :=
  {| rawMap := rawMap st; alertedIds := alertedIds st; connected := connected st;
     cctvOpen := cctvOpen st; currentId := currentId st; ids := ids st;
     clientRef := false; didConnect := didConnect st;
     fallbackTimer := false; effectRawMap := effectRawMap st;
     pendingSaves := pendingSaves st; mounted := false |}.

(** How a save-alert request ends: a response with [response.ok], a response
    with another status, or no response at all. *)
Inductive fetch_outcome : Type :=
  | ResponseOk
  | ResponseStatus (code : nat)
  | NetworkError.

Inductive direction : Type := left | right.
Inductive press : Type := start | stop.

Inductive effect : Type :=
  | Subscribe (topics : list string)
  | Publish (topic : string) (payload : jsval)
  | FetchSaveAlert (payload : jsval)
  | Toast (hhmm target : string)
  | ConsoleLog (what : string)
  | ConsoleWarn (what : string)
  | ConsoleError (what : string)
  | ClientEnd.

(** The effects that only write to the console. *)
Definition is_console (e : effect) : Prop :=
  match e with
  | ConsoleLog _ | ConsoleWarn _ | ConsoleError _ => True
  | _ => False
  end.

(** The first render and the session effect, for the ids handed over by the
    list view.  Without ids there is no session at all. *)
Definition mount (ids : list number) : State :=
  let session := negb (Nat.eqb (length ids) 0) in
  {| rawMap := ∅; alertedIds := ∅; connected := false; cctvOpen := false;
     currentId := None; ids := ids;
     clientRef := session; didConnect := false; fallbackTimer := session;
     effectRawMap := ∅; pendingSaves := 0; mounted := true |}.

(** What the session closure holds, as a tuple. *)
Definition closure (st : State) : bool * bool * bool * RawDeviceMap * bool :=
  (clientRef st, didConnect st, fallbackTimer st, effectRawMap st, mounted st).

(** Before the first connect the registry holds nothing or the fallback
    dataset, the timer is pending only then, and the effect has closed over
    an empty registry. *)
Definition session_inv (st : State) : Prop :=
  effectRawMap st = ∅ ∧
  (fallbackTimer st = true → didConnect st = false) ∧
  (connected st = true → didConnect st = true) ∧
  (didConnect st = false → rawMap st = ∅ ∨ rawMap st = FALLBACK_RAW).

(** [topic.toLowerCase() === "notify"]: only the six ASCII letters can lower
    to the letters of the literal. *)
Definition lower (c : Ascii.ascii) : Ascii.ascii :=
  let n := Ascii.nat_of_ascii c in
  if (65 <=? n)%nat && (n <=? 90)%nat then Ascii.ascii_of_nat (n + 32) else c.

Fixpoint toLowerCase (s : string) : string :=
  match s with
  | EmptyString => EmptyString
  | String c rest => String (lower c) (toLowerCase rest)
  end.

(** [!id] for the selected id: nothing selected, [0] or [NaN]. *)
Definition selected (c : option number) : option number :=
  match c with
  | Some n => if truthy (JNum n) then Some n else None
  | None => None
  end.

Section handlers.
Context {rt : Runtime}.

(** The timer callback. *)
Definition on_fallback_timer (st : State) : State * list effect :=
  let st := clearTimeout st in
  if negb (didConnect st) then
    (setRawMap (λ _, FALLBACK_RAW) (setConnected false st),
     [ConsoleWarn "MQTT connect timeout → using FALLBACK_RAW"])
  else (st, []).

(** [client.on("connect")]; [now] is [nowHHMMSS()]. *)
Definition on_connect (now : string) (st : State) : State * list effect :=
  (setConnected true (clearTimeout (set_didConnect st)),
   [Subscribe ["Response/#"; "Notify"];
    Publish "GET/device"
      (JObj [("id", JStr "AA:BB:CC:11:22:33"); ("timestamp", JStr now)])]).

(** The tuple the handler keeps of [recent_obj], from the three texts. *)
Definition kept (t o i : string) : jsval := JArr [JStr t; JStr o; JStr i].

(** The alert branch of the message handler, past [JSON.parse].  A
    [Number(...)] or [String(...)] that throws ends in the [catch] of the
    handler, before anything is requested, stored or shown. *)
Definition on_alert (hhmm : string) (msg : jsval) (st : State)
    : State * list effect :=
  match get_prop msg "cmd", get_prop msg "id", get_prop msg "idx",
        get_prop msg "recent_obj" with
  | Some cmd, Some msg_id, Some msg_idx, Some msg_recent =>
      if negb (truthy msg) || negb (is_string cmd "alert") then (st, [])
      else
        match to_num (nullish msg_id msg_idx) with
        | None => (st, [ConsoleError "MQTT message parse error:"])
        | Some numId =>
            if negb (isFinite numId) then (st, [])
            else
              match three_strings msg_recent with
              | None => (st, [ConsoleError "MQTT message parse error:"])
              | Some None => (st, [])
              | Some (Some (t, o, i)) =>
                  let recentArr := kept t o i in
                  let alertPayload :=
                    JObj [("cmd", cmd); ("id", JNum numId); ("recent_obj", recentArr)] in
                  let st := set_pendingSaves S st in
                  let st := setRawMap (set_recent (NumberToString numId) recentArr) st in
                  let st := setAlertedIds (λ prev, prev ∪ {[numId]}) st in
                  (st, [FetchSaveAlert alertPayload; Toast hhmm o])
              end
        end
  | _, _, _, _ => (st, [])
  end.

(** [client.on("message")], on the topic and on what [JSON.parse] makes of the
    payload ([None] when it throws); [hhmm] is the time of day the toast
    shows. *)
Definition on_message (hhmm : string) (topic : string) (payload : option jsval)
    (st : State) : State * list effect :=
  let '(st, out) :=
    if String.prefix "Response/" topic then
      match payload with
      | None => (st, [ConsoleError "MQTT message parse error:"])
      | Some (JObj _ as parsed) | Some (JArr _ as parsed) =>
          (setRawMap (λ _, own_props parsed) st, [])
      | Some _ => (st, [])
      end
    else if String.eqb (toLowerCase topic) "notify" then
      match payload with
      | None => (st, [ConsoleError "MQTT message parse error:"])
      | Some msg => on_alert hhmm msg st
      end
    else (st, []) in
  (st, ConsoleLog "payload" :: out).

(** The [then] and [catch] callbacks of the save-alert request. *)
Definition on_save_alert_settled (o : fetch_outcome) (st : State)
    : State * list effect :=
  (set_pendingSaves pred st,
   match o with
   | ResponseOk => [ConsoleLog "Alert data sent to backend successfully."]
   | ResponseStatus _ =>
       [ConsoleError "Failed to send alert data to backend. Status:"]
   | NetworkError => [ConsoleError "Network error while sending alert data:"]
   end).

(** [client.on("error")]. *)
Definition on_error (st : State) : State * list effect :=
  (st, [ConsoleError "MQTT Error"]).

(** [client.on("close")]. *)
Definition on_close (st : State) : State * list effect :=
  let st :=
    if negb (didConnect st) && no_keys (effectRawMap st) then
      setRawMap (λ prev, if no_keys prev then FALLBACK_RAW else prev) st
    else st in
  (setConnected false st, [ConsoleLog "MQTT Closed"]).

(** The cleanup of the effect. *)
Definition on_unmount (st : State) : State * list effect :=
  (teardown st, if clientRef st then [ClientEnd] else []).

(** The click handler of a marker. *)
Definition on_marker_click (it_id : number) (st : State) : State * list effect :=
  (setAlertedIds (λ prev, prev ∖ {[it_id]}) (setCurrentId (Some it_id) st), []).

(** The message [publishPTZ] publishes for device [id]. *)
Definition control (now : string) (dir : direction) (state : press) (id : number)
    : effect :=
  let topic := "CONTROL/device/" +:+ NumberToString id in
  let commend :=
    match state, dir with
    | stop, _ => "stop"
    | start, left => "left"
    | start, right => "right"
    end in
  Publish topic
    (JObj [("user", JStr USER_UUID); ("timestamp", JStr now);
           ("commend", JStr commend); ("id", JNum id)]).

(** [publishPTZ(dir, state)]; [now] is [nowHHMMSS()]. *)
Definition publishPTZ (now : string) (dir : direction) (state : press)
    (st : State) : State * list effect :=
  match selected (currentId st), clientRef st with
  | Some id, true => (st, [control now dir state id])
  | _, _ => (st, [])
  end.

(** [items.find((i) => i.id === currentId)]: the card and the overlay are
    there only for a selected item on the map. *)
Definition current (st : State) : option Item :=
  match currentId st, items (rawMap st) (ids st) with
  | Some c, Some its => find (λ i, num_strict_eq (id i) c) its
  | _, _ => None
  end.
End handlers.

(** *** Events *)

Inductive event : Type :=
  | FallbackTimer
  | Connect (now : string)
  | Message (hhmm topic : string) (payload : option jsval)
  | TransportError
  | Close
  | SaveAlertSettled (o : fetch_outcome)
  | MarkerClick (it_id : number)
  | ClosePanel
  | OpenCctv
  | CloseCctv
  | Pan (now : string) (dir : direction) (state : press)
  | Unmount.

(** The three handlers that can bring in the fallback dataset. *)
Definition may_fall_back (e : event) : Prop :=
  e = FallbackTimer ∨ e = TransportError ∨ e = Close.

Section run.
Context {rt : Runtime}.

(** What can happen in a state: the timer fires only while pending, the
    client raises events only while it lives, messages arrive only on an
    open connection (the subscriptions are made on connect), a request
    settles only while in flight, and the user can only press what is
    rendered. *)
Definition enabled (e : event) (st : State) : bool :=
  match e with
  | FallbackTimer => fallbackTimer st
  | Connect _ | TransportError | Close => clientRef st
  | Message _ _ _ => clientRef st && connected st
  | SaveAlertSettled _ => negb (Nat.eqb (pendingSaves st) 0)
  | MarkerClick it_id =>
      mounted st &&
      match items (rawMap st) (ids st) with
      | Some its => existsb (λ i, bool_decide (id i = it_id)) its
      | None => false
      end
  | ClosePanel => mounted st
  | OpenCctv => mounted st && bool_decide (is_Some (current st))
  | CloseCctv | Pan _ _ _ =>
      mounted st && cctvOpen st && bool_decide (is_Some (selected (currentId st)))
  | Unmount => mounted st
  end.

Definition handle (e : event) (st : State) : State * list effect :=
  match e with
  | FallbackTimer => on_fallback_timer st
  | Connect now => on_connect now st
  | Message hhmm topic payload => on_message hhmm topic payload st
  | TransportError => on_error st
  | Close => on_close st
  | SaveAlertSettled o => on_save_alert_settled o st
  | MarkerClick it_id => on_marker_click it_id st
  | ClosePanel => (setCurrentId None st, [])
  | OpenCctv => (setCctvOpen true st, [])
  | CloseCctv => (setCctvOpen false st, [])
  | Pan now dir state => publishPTZ now dir state st
  | Unmount => on_unmount st
  end.

(** A run of events from a state: the state reached and everything emitted
    on the way, or [None] if some event could not happen where it stands. *)
Fixpoint run (evs : list event) (st : State) : option (State * list effect) :=
  match evs with
  | [] => Some (st, [])
  | e :: rest =>
      if enabled e st then
        let '(st', out) := handle e st in
        '(st'', out') ← run rest st';
        Some (st'', out ++ out')
      else None
  end.

(** The states a view can be in. *)
Definition reachable (st : State) : Prop :=
  ∃ ids evs out, run evs (mount ids) = Some (st, out).
End run.

(** An item with another most recent detection. *)
Definition with_recent (r : option Recent) (it : Item) : Item :=
  {| id := id it; name := name it; status := status it; statusDot := statusDot it;
     battery := battery it; lat := lat it; lng := lng it; recent := r |}.

(** *** Stored ids *)

(** [x && typeof x.id === "number" ? x.id : NaN]. *)
Definition stored_id (x : jsval) : number :=
  if truthy x then
    match get_prop x "id" with
    | Some (JNum n) => n
    | _ => NaN
    end
  else NaN.

(** [loadIdsFromStorage], on what [JSON.parse] makes of the stored text;
    [None] when nothing is stored or the text does not parse. *)
Definition loadIdsFromStorage (stored : option jsval) : list number :=
  match stored with
  | Some (JArr arr) => filter (λ n, isFinite n = true) (stored_id <$> arr)
  | _ => []
  end.

(** *** Clock texts *)

(** [s.padStart(targetLength, padString)]. *)
Definition padStart (targetLength : nat) (padString : string) (s : string) : string :=
  let missing := targetLength - String.length s in
  match padString with
  | EmptyString => s
  | _ =>
      String.string_of_list_ascii
        (take missing (mjoin (replicate missing (String.list_ascii_of_string padString))))
      +:+ s
  end.

(** [nowHHMMSS], on the hours, minutes and seconds of the clock; [String] of
    such a number is its decimal text. *)
Definition nowHHMMSS (hours minutes seconds : nat) : string :=
  let hh := padStart 2 "0" (pretty hours) in
  let mm := padStart 2 "0" (pretty minutes) in
  let ss := padStart 2 "0" (pretty seconds) in
  hh +:+ ":" +:+ mm +:+ ":" +:+ ss.

(** The two decimal digits of a number below one hundred. *)
Definition two_digits (n : nat) : string :=
  String (ascii_of_nat (48 + n / 10)) (String (ascii_of_nat (48 + n mod 10)) EmptyString).

(** [timeAgo(iso)] at time [now]; [time_value] is [new Date(iso).getTime()],
    [None] for NaN.  Times are whole milliseconds, far below the size where a
    quotient of doubles could be rounded to the next integer. *)
Definition timeAgo (iso : option string) (time_value : option Z) (now : Z) : string :=
  match iso with
  | None | Some EmptyString => "-"
  | Some iso =>
      match time_value with
      | None => iso
      | Some t =>
          let diff := (now - t)%Z in
          let sec := (diff / 1000)%Z in
          if (sec <? 30)%Z then "방금 전"
          else if (sec <? 60)%Z then pretty sec +:+ "초 전"
          else
            let min := (sec / 60)%Z in
            if (min <? 60)%Z then pretty min +:+ "분 전"
            else
              let hour := (min / 60)%Z in
              if (hour <? 24)%Z then pretty hour +:+ "시간 전"
              else
                let day := (hour / 24)%Z in
                pretty day +:+ "일 전"
      end
  end.

(** The hour of a log label in [fmt], for the UTC hour [hours]: the text
    [String(hours)] is compared with the text ["13"], and past it twelve is
    taken off the number. *)
Definition hour_label (hours : nat) : string * string :=
  let hh := pretty hours in
  if String.leb "13" hh then ("P.M.", pretty (Z.of_nat hours - 12)%Z)
  else ("A.M.", hh).

Definition week : list string := ["일"; "월"; "화"; "수"; "목"; "금"; "토"].

(** The UTC fields [fmt] reads of a date. *)
Record UTCDate : Type := {
  getUTCFullYear : Z;
  getUTCMonth : nat;
  getUTCDate : nat;
  getUTCDay : nat;
  getUTCHours : nat;
  getUTCMinutes : nat;
}.

(** [fmt(iso)]: the date label, the time label and [ago]; [d] is
    [new Date(iso)], [None] for an invalid date. *)
Definition fmt (iso : string) (d : option UTCDate) : string * string * string :=
  match d with
  | None => (iso, "", "")
  | Some d =>
      let yyyy := pretty (getUTCFullYear d) in
      let mm := pretty (getUTCMonth d + 1) in
      let dd := pretty (getUTCDate d) in
      let weekday := default "undefined" (week !! getUTCDay d) in
      let '(ampm, hh) := hour_label (getUTCHours d) in
      let mi := pretty (getUTCMinutes d) in
      (yyyy +:+ "." +:+ mm +:+ "." +:+ dd +:+ " (" +:+ weekday +:+ ")",
       ampm +:+ " " +:+ hh +:+ "시 " +:+ mi +:+ "분",
       "")
  end.

End P2.

(** ** An engine and a table to run the handlers on *)

Module Examples.

(** Digits at the head of [s]: their value, how many, and the rest. *)
Fixpoint read_digits (s : string) (acc : Z) (n : nat) : Z * nat * string :=
  match s with
  | String c rest =>
      match Ascii.is_nat c with
      | Some d => read_digits rest (10 * acc + Z.of_nat d)%Z (S n)
      | None => (acc, n, s)
      end
  | EmptyString => (acc, n, s)
  end.

(** [StringToNumber] on unsigned decimal literals ([12], [37.868770]) and on
    the empty string; NaN elsewhere. *)
Definition decimal_literal (s : string) : number :=
  match s with
  | EmptyString => int 0
  | _ =>
      let '(whole, n, rest) := read_digits s 0 0 in
      match n, rest with
      | O, _ => NaN
      | _, EmptyString => int whole
      | _, String "."%char frac =>
          let '(part, k, rest') := read_digits frac 0 0 in
          match rest' with
          | EmptyString =>
              Fin (Q2Qc ((whole * 10 ^ Z.of_nat k + part)%Z # Z.to_pos (10 ^ Z.of_nat k)))
          | _ => NaN
          end
      | _, _ => NaN
      end
  end.

(** [Number::toString] on integers of ordinary size; a fraction is written
    as such. *)
Definition decimal_text (n : number) : string :=
  match n with
  | NaN => "NaN"
  | Infinity false => "Infinity"
  | Infinity true => "-Infinity"
  | Fin q =>
      match Qden q with
      | 1%positive => pretty (Qnum q)
      | d => pretty (Qnum q) +:+ "/" +:+ pretty d
      end
  end.

(** The number of bytes of the UTF-8 sequence that the byte [c] starts; a
    byte that starts none stands alone. *)
Definition sequence_length (c : Ascii.ascii) : nat :=
  let n := Ascii.nat_of_ascii c in
  if n <? 192 then 1
  else if n <? 224 then 2
  else if n <? 240 then 3
  else if n <? 248 then 4
  else 1.

Fixpoint utf8_sequences (fuel : nat) (bytes : list Ascii.ascii) : list (list Ascii.ascii) :=
  match fuel, bytes with
  | S fuel, c :: _ =>
      let k := sequence_length c in
      take k bytes :: utf8_sequences fuel (drop k bytes)
  | _, _ => []
  end.

(** The text of a lone code unit above [0x7FF], in the three bytes of its
    value. *)
Definition unit_text (u : N) : string :=
  String.string_of_list_ascii
    [Ascii.ascii_of_N (224 + u / 4096); Ascii.ascii_of_N (128 + (u / 64) mod 64);
     Ascii.ascii_of_N (128 + u mod 64)]%N.

(** The code units of one character: itself, but the two surrogates for a
    character of four bytes. *)
Definition units_of (sq : list Ascii.ascii) : list string :=
  match sq with
  | [b0; b1; b2; b3] =>
      let cp := ((Ascii.N_of_ascii b0 mod 8) * 262144 + (Ascii.N_of_ascii b1 mod 64) * 4096
                 + (Ascii.N_of_ascii b2 mod 64) * 64 + Ascii.N_of_ascii b3 mod 64)%N in
      let v := (cp - 65536)%N in
      [unit_text (55296 + v / 1024)%N; unit_text (56320 + v mod 1024)%N]
  | _ => [String.string_of_list_ascii sq]
  end.

(** The code units of a text written in UTF-8. *)
Definition utf16_units (s : string) : list string :=
  let bytes := String.list_ascii_of_string s in
  utf8_sequences (length bytes) bytes ≫= units_of.

Lemma utf16_units_nil (s : string) : utf16_units s = [] ↔ s = "".
Proof.
  split; [|by intros ->].
  destruct s as [|c s]; [done|]. unfold utf16_units. simpl.
  destruct (units_of _) eqn:Hunits; [|done].
  unfold units_of in Hunits. by repeat case_match.
Qed.

(** An engine that is right on the decimal literals and the integers the
    examples use, and on texts in UTF-8. *)
Definition decimal_runtime : Runtime :=
  {| StringToNumber := decimal_literal; NumberToString := decimal_text;
     CodeUnits := utf16_units; CodeUnits_nil := utf16_units_nil |}.

Import Gateway.

(** Newest first, by the text of the event time. *)
Definition newer_first (a b : DBLogData) : Prop :=
  String.le (event_time b) (event_time a).

#[global] Instance newer_first_dec : RelDecision newer_first.
Proof. intros a b. unfold newer_first. apply _. Defined.

(** A table with a numeric and three text columns: an insert of anything
    else is rejected, a select never is, and ties come out in insertion
    order. *)
Definition text_insert (t : table) (id event_time detected_object base64_image : jsval)
    : option table :=
  match id, event_time, detected_object, base64_image with
  | JNum n, JStr tm, JStr obj, JStr img =>
      if isFinite n then Some (t ++ [Build_DBLogData n tm obj img]) else None
  | _, _, _, _ => None
  end.

Definition text_select (t : table) (id : number) : option table :=
  Some (take 10 (merge_sort newer_first (filter (of_device id) t))).

(** *** The table as a storage engine *)

Section text_table.

#[local] Instance newer_first_trans : Transitive newer_first.
Proof. intros a b c Hab Hbc. unfold newer_first in *. by etrans. Qed.

#[local] Instance newer_first_total : Total newer_first.
Proof. intros a b. unfold newer_first. destruct (total String.le (event_time a) (event_time b)); auto. Qed.

Lemma text_insert_appends t n tm obj img t' :
  text_insert t (JNum n) (JStr tm) (JStr obj) (JStr img) = Some t' →
  t' = t ++ [Build_DBLogData n tm obj img].
Proof. unfold text_insert. destruct (isFinite n); congruence. Qed.

Lemma text_select_sorted t id rows :
  text_select t id = Some rows →
  ∃ arranged,
    arranged ≡ₚ filter (of_device id) t ∧
    StronglySorted (λ a b, String.le (event_time b) (event_time a)) arranged ∧
    rows = take 10 arranged.
Proof.
  intros [= <-].
  exists (merge_sort newer_first (filter (of_device id) t)).
  split_and!; [apply merge_sort_Permutation | | done].
  apply (StronglySorted_merge_sort newer_first).
Qed.
End text_table.

(** The example table as a storage engine. *)
Definition text_table : Storage :=
  {| time_le := String.le;
     insert_alert := Examples.text_insert;
     select_recent := Examples.text_select;
     insert_alert_appends := text_insert_appends;
     select_recent_sorted := text_select_sorted |}.

(** *** Rows, registries and notifications *)

Definition hog_2 : DBLogData :=
  Build_DBLogData (int 2) "2025-05-01T23:21:52" "hog" "data:image/jpeg;base64,AAAA".

Definition hog_2_body : jsval :=
  JObj [("cmd", JStr "alert"); ("id", JNum (int 2));
        ("recent_obj", JArr [JStr "2025-05-01T23:21:52"; JStr "hog";
                             JStr "data:image/jpeg;base64,AAAA"])].

(** Ten alerts of device 2 from June, and one of device 3. *)
Definition june : table :=
  ((λ k, Build_DBLogData (int 2) ("2025-06-01T00:00:0" +:+ pretty k) "hog" "") <$> seq 0 10)
  ++ [Build_DBLogData (int 3) "2025-04-01T00:00:00" "deer" ""].

(** A shorter table: three of the June alerts, and an older one. *)
Definition spring : table :=
  Build_DBLogData (int 2) "2025-03-01T08:00:00" "deer" "" :: take 3 june.

Section map_data.
Import P2.
Existing Instance decimal_runtime.

(** The registry [{1, 2, 3}]: the fallback dataset without device 4. *)
Definition three_devices : RawDeviceMap := delete "4" FALLBACK_RAW.

(** The same registry with device 3 at a position that is not a number. *)
Definition lost_device_3 : RawDeviceMap :=
  <["3" := raw_device "40" "24.6" "70" "OFF" "north" "127.742999" []]> three_devices.

(** The notification of the end-to-end scenario. *)
Definition hog_at_2 : list (string * jsval) :=
  [("cmd", JStr "alert"); ("id", JNum (int 2));
   ("recent_obj", JArr [JStr "2025-05-01T23:21:52"; JStr "hog"; JStr "https://cam/2.jpg"])].

(** A view of the devices 1, 2 and 3 that has connected and received the
    table of the three devices. *)
Definition live_events : list event :=
  [Connect "23:20:00";
   Message "23:20" "Response/AA:BB:CC:11:22:33"
     (Some (JObj (map_to_list three_devices)))].

Definition live : State :=
  from_option fst (mount []) (run live_events (mount [int 1; int 2; int 3])).

(** The same notification for device 7, which the registry does not have. *)
Definition hog_at_7 : list (string * jsval) :=
  [("cmd", JStr "alert"); ("id", JNum (int 7));
   ("recent_obj", JArr [JStr "2025-05-01T23:21:52"; JStr "hog"; JStr "https://cam/7.jpg"])].

(** The object [{"toString": 1}], which [String] and [Number] cannot
    convert. *)
Definition no_text : jsval := JObj [("toString", JNum (int 1))].

(** The two notifications with such an object for the time of the
    detection. *)
Definition hog_at_2_no_time : list (string * jsval) :=
  [("cmd", JStr "alert"); ("id", JNum (int 2));
   ("recent_obj", JArr [no_text; JStr "hog"; JStr "https://cam/2.jpg"])].

Definition hog_at_7_no_time : list (string * jsval) :=
  [("cmd", JStr "alert"); ("id", JNum (int 7));
   ("recent_obj", JArr [no_text; JStr "hog"; JStr "https://cam/7.jpg"])].

(** The registry of the three devices with [null] for device 1. *)
Definition null_device_1 : RawDeviceMap := <["1" := JNull]> three_devices.

(** A view whose broker never answers: the connection closes twice and the
    user looks at the empty map. *)
Definition silent_events : list event := [TransportError; Close; ClosePanel; Close].

End map_data.

Section list_data.
Import P1.

Definition stake (n : Z) (status dot : string) : Item :=
  {| id := int n; name := pretty n +:+ "번 말뚝"; status := status; statusDot := dot;
     battery := "40"; lat := None; lng := None |}.

Definition two_stakes : State :=
  {| items := [stake 1 "정상" "green"; stake 2 "정상" "green"];
     itemsRef := [stake 1 "정상" "green"; stake 2 "정상" "green"] |}.

Definition stake_2_bad : list (string * jsval) :=
  [("cmd", JStr "status_update"); ("id", JNum (int 2)); ("status", JStr "BAD");
   ("battery", JStr "15")].

End list_data.

End Examples.

(** ** Properties of the gateway *)

Section number_facts.

Lemma num_lt_of_nat (n m : nat) : num_lt (of_nat n) (of_nat m) = bool_decide (n < m).
Proof.
  unfold of_nat, int, num_lt.
  apply bool_decide_ext.
  unfold Qclt. simpl. rewrite !Qred_correct.
  unfold Qlt. simpl. lia.
Qed.

End number_facts.

Import Gateway.

Section gateway.
Context {rt : Runtime} {db : Storage}.

Lemma StronglySorted_take {A} (R : relation A) (l : list A) n :
  StronglySorted R l → StronglySorted R (take n l).
Proof.
  intros Hl. rewrite <-(take_drop n l) in Hl.
  by apply StronglySorted_app_1_l in Hl.
Qed.

(** Rows drawn from [l2] that all satisfy [P] are at most as many as the rows
    of [l2] that do. *)
Lemma submseteq_filter_length {A} (P : A → Prop) `{!∀ x, Decision (P x)}
    (l1 l2 : list A) :
  l1 ⊆+ l2 → Forall P l1 → length l1 ≤ length (filter P l2).
Proof.
  intros [k Hk]%submseteq_Permutation Hall.
  rewrite Hk, filter_app, length_app.
  enough (filter P l1 = l1) as -> by lia.
  clear Hk. induction Hall as [|x l Hx _ IH]; [done|].
  rewrite filter_cons_True by done. by rewrite IH.
Qed.

(** In a descending arrangement, whatever stands before position [k] is at
    least as new as what stands at [k]. *)
Lemma descending_before (l : table) k r x :
  StronglySorted descending l → l !! k = Some r → x ∈ take k l →
  time_le (event_time r) (event_time x).
Proof.
  intros Hl Hk Hx.
  rewrite <-(take_drop k l) in Hl.
  apply (StronglySorted_app_1_elem_of _ _ _ x r) in Hl; [done..|].
  apply list_elem_of_lookup. exists 0. by rewrite lookup_drop, Nat.add_0_r.
Qed.

(** No row is kept of a list in which none passes the test. *)
Lemma filter_none {A} (P : A → Prop) `{!∀ x, Decision (P x)} (l : list A) :
  Forall (λ x, ¬ P x) l → filter P l = [].
Proof.
  induction 1 as [|x l Hx _ IH]; [done|].
  by rewrite filter_cons_False.
Qed.

(** What stands after position [k] is at most as new as what stands at
    [k]. *)
Lemma descending_after (l : table) k r x :
  StronglySorted descending l → l !! k = Some r → x ∈ drop (S k) l →
  time_le (event_time x) (event_time r).
Proof.
  intros Hl Hk Hx.
  rewrite <-(take_drop (S k) l) in Hl.
  apply (StronglySorted_app_1_elem_of _ _ _ r x) in Hl; [done| |done].
  apply list_elem_of_lookup. exists k. rewrite lookup_take_lt by lia. done.
Qed.

(** The handler on a body whose [recent_obj] is an array of three or more
    elements. *)
Lemma save_alert_tuple (props : list (string * jsval)) x y z rest (t : table) :
  assoc "recent_obj" props = JArr (x :: y :: z :: rest) →
  save_alert (JObj props) t =
    match insert_alert t (assoc "id" props) x y z with
    | Some t' =>
        match to_str (assoc "id" props), to_str x with
        | Some _, Some _ =>
            Some ({| status := 200; sent := Message "Alert saved successfully." |}, t')
        | _, _ => Some ({| status := 500; sent := Error "Failed to save alert." |}, t')
        end
    | None => Some ({| status := 500; sent := Error "Failed to save alert." |}, t)
    end.
Proof.
  intros Hrecent. unfold save_alert.
  cbn [get_prop mbind option_bind]. rewrite Hrecent.
  change (int 3) with (of_nat 3).
  cbn [truthy negb js_length to_num mbind option_bind].
  rewrite num_lt_of_nat, bool_decide_eq_false_2 by (simpl; lia). done.
Qed.

(** C3: what the guard of the save-alert handler does.  A body whose
    [recent_obj] is missing or falsy, or is an array of fewer than three
    elements, is answered with status 400 whatever the storage engine would
    do, and the table is left as it was.  But a [recent_obj] that is truthy
    and has no [length] (the object [{}], [true], a number other than 0)
    passes the guard: the handler goes on to the [INSERT], with [undefined]
    for the three columns, and answers 200 or 500, never 400. *)
Theorem save_alert_guard_misses_what_has_no_length
    (props : list (string * jsval)) (t : table) :
  let id := assoc "id" props in
  let recent_obj := assoc "recent_obj" props in
  ((truthy recent_obj = false ∨ ∃ l, recent_obj = JArr l ∧ length l < 3) →
   save_alert (JObj props) t =
     Some ({| status := 400; sent := Message "Invalid payload structure." |}, t)) ∧
  ((recent_obj = JObj [] ∨ recent_obj = JBool true ∨
    ∃ n, recent_obj = JNum n ∧ truthy (JNum n) = true) →
   save_alert (JObj props) t =
     match insert_alert t id JUndef JUndef JUndef with
     | Some t' =>
         match to_str id with
         | Some _ =>
             Some ({| status := 200; sent := Message "Alert saved successfully." |}, t')
         | None => Some ({| status := 500; sent := Error "Failed to save alert." |}, t')
         end
     | None => Some ({| status := 500; sent := Error "Failed to save alert." |}, t)
     end).
Proof.
  intros id recent_obj. subst id recent_obj. unfold save_alert.
  change (int 3) with (of_nat 3).
  cbn [get_prop mbind option_bind].
  split.
  - intros [-> | (l & -> & Hl)]; [done|].
    cbn [truthy negb js_length to_num mbind option_bind].
    by rewrite num_lt_of_nat, bool_decide_eq_true_2.
  - intros [-> | [-> | (n & -> & ->)]]; cbn;
      destruct (insert_alert t (assoc "id" props) JUndef JUndef JUndef);
      by destruct (to_str (assoc "id" props)).
Qed.

(** C4, as the code has it: the recent-alerts handler never changes the
    table.  It answers 400 exactly when [Number(device_id)] is a value that
    is not finite, and 500 when that conversion throws.  When it answers
    with rows, the status is 200, the id is finite, and the rows are the
    first ten of an arrangement of all the rows the device has in the table,
    newest event time first: as many as the device has, up to ten, all of
    that device, all from the table, and every row left out is at most as
    new as every row returned. *)
Theorem recent_alerts_read_only_newest_first (device_id_param : jsval) (t : table) :
  let resp := (recent_alerts device_id_param t).1 in
  (recent_alerts device_id_param t).2 = t ∧
  (resp = {| status := 400; sent := Error "device_id is required" |} ↔
     ∃ n, to_num device_id_param = Some n ∧ isFinite n = false) ∧
  (to_num device_id_param = None →
     resp = {| status := 500; sent := Error "Failed to retrieve alerts." |}) ∧
  (∀ n, to_num device_id_param = Some n → isFinite n = true →
     resp = {| status := 500; sent := Error "Failed to retrieve alerts." |} ∨
     ∃ rows, resp = {| status := 200; sent := Rows rows |}) ∧
  (∀ rows, sent resp = Rows rows →
     status resp = 200 ∧
     ∃ n arranged,
       to_num device_id_param = Some n ∧ isFinite n = true ∧
       arranged ≡ₚ filter (of_device n) t ∧
       StronglySorted descending arranged ∧
       rows = take 10 arranged ∧
       length rows = 10 `min` length (filter (of_device n) t) ∧
       Forall (of_device n) rows ∧
       rows ⊆+ t ∧
       (∀ r r', r ∈ drop 10 arranged → r' ∈ rows →
          time_le (event_time r) (event_time r'))).
Proof.
  intros resp. subst resp. unfold recent_alerts.
  destruct (to_num device_id_param) as [n|] eqn:Hnum; simpl.
  2: { split_and!; [done | | done | done | done].
       split; [done | by intros (? & ? & ?)]. }
  destruct (isFinite n) eqn:Hfin; simpl.
  2: { split_and!; [done | | done | | done].
       - split; [by eauto | done].
       - intros ? [= <-]. congruence. }
  destruct (select_recent t n) as [rows|] eqn:Hsel; simpl.
  2: { split_and!; [done | | done | by eauto | done].
       split; [done | intros (? & [= <-] & ?); congruence]. }
  split_and!; [done | | done | by eauto |].
  { split; [done | intros (? & [= <-] & ?); congruence]. }
  intros ? [= <-]. split; [done|].
  apply select_recent_sorted in Hsel as (arranged & Hperm & Hsorted & ->).
  exists n, arranged.
  split_and!; [done | done | done | done | done | | | |].
  - by rewrite length_take, Hperm.
  - apply Forall_take. rewrite Hperm. apply Forall_forall.
    by intros x [? _]%list_elem_of_filter.
  - trans arranged; [apply sublist_submseteq, sublist_take|].
    rewrite Hperm. apply sublist_submseteq, sublist_filter.
  - intros r r' Hr Hr'.
    rewrite <-(take_drop 10 arranged) in Hsorted.
    by apply (StronglySorted_app_1_elem_of _ _ _ r' r) in Hsorted.
Qed.

(** C2, as the code has it: after a save-alert request for a finite id and
    a tuple of three strings was answered with 200, a recent-alerts
    request for that id that is answered with rows returns the submitted
    record among its first ten, provided fewer than ten records of that
    device already in the table have an event time at or after the
    submitted one; and it does not return the submitted record when ten or
    more records of that device already in the table are strictly newer
    (their event time is not at or before the submitted one). *)
Theorem saved_alert_is_recent_unless_ten_newer
    (props : list (string * jsval)) (n : number) (tm obj img : string)
    (device_id_param : jsval) (t t' : table) (rows : table) :
  assoc "id" props = JNum n →
  assoc "recent_obj" props = JArr [JStr tm; JStr obj; JStr img] →
  to_num device_id_param = Some n →
  save_alert (JObj props) t =
    Some ({| status := 200; sent := Message "Alert saved successfully." |}, t') →
  (recent_alerts device_id_param t').1 = {| status := 200; sent := Rows rows |} →
  (length (filter (λ r, of_device n r ∧ time_le tm (event_time r)) t) < 10 →
   ∃ k, k < 10 ∧ rows !! k = Some (Build_DBLogData n tm obj img)) ∧
  (10 ≤ length (filter (λ r, of_device n r ∧ ¬ time_le (event_time r) tm) t) →
   Build_DBLogData n tm obj img ∉ rows).
Proof.
  intros Hid Hrecent Hq Hsave Hget.
  set (r := Build_DBLogData n tm obj img).
  assert (t' = t ++ [r]) as ->.
  { rewrite (save_alert_tuple _ _ _ _ _ _ Hrecent), Hid in Hsave.
    destruct (insert_alert _ _ _ _ _) as [t''|] eqn:Hins; [|done].
    apply insert_alert_appends in Hins. cbn in Hsave. by simplify_eq. }
  unfold recent_alerts in Hget. rewrite Hq in Hget.
  destruct (isFinite n); [|done]. simpl in Hget.
  destruct (select_recent _ _) as [rows'|] eqn:Hsel; [|done].
  injection Hget as <-.
  apply select_recent_sorted in Hsel as (arranged & Hperm & Hsorted & ->).
  rewrite filter_app, filter_cons_True, filter_nil in Hperm by done.
  split.
  - intros Hfew.
    assert (r ∈ arranged) as (k & Hk)%list_elem_of_lookup_1.
    { rewrite Hperm. set_solver. }
    exists k.
    assert (k < 10); [|by rewrite lookup_take_lt].
    pose proof (lookup_lt_Some _ _ _ Hk) as Hlen.
    (* what stands before [k] are rows of the old table, at least as new *)
    assert (take k arranged ⊆+ filter (of_device n) t) as Hsub.
    { apply (submseteq_app_inv_r _ _ [r]). rewrite <-Hperm.
      rewrite <-(take_drop_middle arranged k r) at 2 by done.
      rewrite (comm (++) _ [r]). simpl.
      by apply submseteq_cons_middle, submseteq_inserts_r. }
    assert (Forall (λ x, time_le tm (event_time x)) (take k arranged)) as Hnew.
    { apply Forall_forall. intros x Hx.
      by apply (descending_before arranged k r x). }
    pose proof (submseteq_filter_length _ _ _ Hsub Hnew) as Hcount.
    rewrite list_filter_filter, length_take_le in Hcount by lia.
    erewrite list_filter_iff in Hcount; [|intros x; apply and_comm].
    lia.
  - intros Hmany (k & Hk)%list_elem_of_lookup_1.
    apply lookup_take_Some in Hk as [Hk Hlt].
    (* the strictly newer rows of the old table all stand before [k] *)
    assert (take k arranged ++ drop (S k) arranged ≡ₚ filter (of_device n) t) as Hold.
    { apply (Permutation_cons_inv (a := r)).
      rewrite Permutation_middle, take_drop_middle by done.
      rewrite Hperm. by rewrite (comm (++)). }
    assert (filter (λ x, ¬ time_le (event_time x) tm) (drop (S k) arranged) = [])
      as Hafter.
    { apply filter_none, Forall_forall. intros x Hx Hnewer. apply Hnewer.
      by apply (descending_after arranged k r x). }
    assert (length (filter (λ x, ¬ time_le (event_time x) tm) (filter (of_device n) t)) ≤ k)
      as Hcount.
    { rewrite <-Hold, filter_app, Hafter, app_nil_r.
      etrans; [apply length_filter|]. rewrite length_take. lia. }
    rewrite list_filter_filter in Hcount.
    erewrite list_filter_iff in Hcount; [|intros x; apply and_comm].
    lia.
Qed.
End gateway.

(** ** The gateway on the example table *)

Section gateway_examples.
Import Examples.
Existing Instance decimal_runtime.
Existing Instance text_table.

(** C3, the failing input: the body [{"id": 2, "recent_obj": {}}] has a
    [recent_obj] without three elements, and is not answered with 400: the
    handler hands three [undefined] values to the table, which refuses
    them. *)
Lemma save_alert_guard_misses_what_has_no_length_witness :
  save_alert (JObj [("id", JNum (int 2)); ("recent_obj", JObj [])]) june =
  Some ({| status := 500; sent := Error "Failed to save alert." |}, june).
Proof.
  rewrite (proj2 (save_alert_guard_misses_what_has_no_length
                    [("id", JNum (int 2)); ("recent_obj", JObj [])] june)).
  - vm_compute. reflexivity.
  - left. reflexivity.
Defined.

(** The guard counts the code units of a string: a text of two Korean
    syllables is too short. *)
Example save_alert_rejects_two_syllables :
  save_alert (JObj [("id", JNum (int 2)); ("recent_obj", JStr "말뚝")]) june =
  Some ({| status := 400; sent := Message "Invalid payload structure." |}, june).
Proof. vm_compute. reflexivity. Qed.

(** C4, as stated, fails: for a [device_id] that [Number] cannot convert
    (the object [{toString: "1"}], as the query [?device_id[toString]=1]
    parses), the handler does not answer with the validation error but with
    the 500 of its [catch]. *)
Lemma recent_alerts_unconvertible_id_is_500 :
  to_num (JObj [("toString", JStr "1")]) = None ∧
  (recent_alerts (JObj [("toString", JStr "1")]) june).1 =
    {| status := 500; sent := Error "Failed to retrieve alerts." |}.
Proof. split; vm_compute; reflexivity. Qed.

(** C2, as stated, fails: with ten newer alerts of device 2 in the table, the
    alert just saved for device 2 is not among the rows the gateway
    returns. *)
Lemma saved_alert_missing_after_ten_newer :
  ∃ rows,
    save_alert hog_2_body june =
      Some ({| status := 200; sent := Message "Alert saved successfully." |},
            june ++ [hog_2]) ∧
    (recent_alerts (JStr "2") (june ++ [hog_2])).1 =
      {| status := 200; sent := Rows rows |} ∧
    length rows = 10 ∧
    hog_2 ∉ rows.
Proof.
  eexists. split; [vm_compute; reflexivity|].
  split; [vm_compute; reflexivity|].
  split; [reflexivity|].
  apply (bool_decide_unpack _). vm_compute. exact I.
Qed.

Lemma saved_alert_is_recent_unless_ten_newer_witness :
  ∃ rows k,
    (recent_alerts (JStr "2") (spring ++ [hog_2])).1 =
      {| status := 200; sent := Rows rows |} ∧
    k < 10 ∧ rows !! k = Some hog_2.
Proof.
  pose (rows := take 10 (merge_sort newer_first
                           (filter (of_device (int 2)) (spring ++ [hog_2])))).
  exists rows.
  assert ((recent_alerts (JStr "2") (spring ++ [hog_2])).1 =
          {| status := 200; sent := Rows rows |})
    as Hget by (vm_compute; reflexivity).
  destruct (saved_alert_is_recent_unless_ten_newer
              [("cmd", JStr "alert"); ("id", JNum (int 2));
               ("recent_obj", JArr [JStr "2025-05-01T23:21:52"; JStr "hog";
                                    JStr "data:image/jpeg;base64,AAAA"])]
              (int 2) "2025-05-01T23:21:52" "hog" "data:image/jpeg;base64,AAAA"
              (JStr "2") spring (spring ++ [hog_2]) rows
              eq_refl eq_refl) as [Hfew _].
  - vm_compute. reflexivity.
  - vm_compute. reflexivity.
  - exact Hget.
  - destruct Hfew as (k & Hk & Hrow).
    + apply (bool_decide_unpack _). vm_compute. exact I.
    + exists k. auto.
Defined.
End gateway_examples.

(** ** Properties of the map view *)

Section projection.
Context {rt : Runtime}.
Import P2.

Lemma push_item_ids (idSet : gset number) key d pushed :
  push_item idSet (key, d) = Some pushed →
  ∀ n, n ∈ id <$> pushed ↔
       n = StringToNumber key ∧ n ∈ idSet ∧ finite_position d.
Proof.
  intros Hpush n. unfold push_item in Hpush. unfold finite_position.
  case_bool_decide as Hin.
  2: { simplify_eq. split; [by intros ?%elem_of_nil | by intros (-> & ? & _)]. }
  destruct (get_prop d "lat") as [d_lat|] eqn:Hdlat; [|done].
  cbn [mbind option_bind] in Hpush.
  destruct (to_num d_lat) as [la|] eqn:Hla; [|done].
  cbn [mbind option_bind] in Hpush.
  destruct (get_prop d "lng") as [d_lng|] eqn:Hdlng; [|done].
  cbn [mbind option_bind] in Hpush.
  destruct (to_num d_lng) as [lo|] eqn:Hlo; [|done].
  cbn [mbind option_bind] in Hpush.
  destruct (isFinite la && isFinite lo) eqn:Hfin.
  - destruct (get_prop d "status"); [|done].
    cbn [mbind option_bind] in Hpush. destruct (mapStatus _) as [st dot].
    destruct (get_prop d "recent_obj"); [|done].
    cbn [mbind option_bind] in Hpush.
    destruct (three_strings _); [|done].
    cbn [mbind option_bind] in Hpush.
    destruct (get_prop d "battery"); [|done].
    cbn [mbind option_bind] in Hpush.
    destruct (to_str _); [|done].
    cbn [mbind option_bind] in Hpush. simplify_eq.
    apply andb_true_iff in Hfin as [? ?].
    rewrite list_elem_of_fmap. split.
    + intros (it & -> & ->%list_elem_of_singleton). simpl. eauto 12.
    + intros (-> & _ & _). eexists. split; [|by apply list_elem_of_singleton]. done.
  - simplify_eq. split; [by intros ?%elem_of_nil|].
    intros (_ & _ & ? & ? & la' & lo' & ? & ? & ? & ? & Hfla & Hflo).
    simplify_eq. by rewrite Hfla, Hflo in Hfin.
Qed.

(** C5, as the code has it: whenever the projection does not throw, the ids
    of the map items are exactly the numbers [Number(key)] of the registry
    keys that are in the user's list and whose record has finite
    coordinates.  The registry is not touched: a record without finite
    coordinates stays in it. *)
Theorem items_are_registry_meet_user_list
    (rawMap : RawDeviceMap) (ids : list number) (its : list Item) :
  items rawMap ids = Some its →
  ∀ n, n ∈ id <$> its ↔
       ∃ key d, rawMap !! key = Some d ∧ to_num (JStr key) = Some n ∧
                n ∈ ids ∧ finite_position d.
Proof.
  unfold items.
  set (idSet := list_to_set ids : gset number).
  destruct (mapM (push_item idSet) (map_to_list rawMap)) as [out|] eqn:Hout; [|done].
  cbn [mbind option_bind]. intros [= <-] n.
  rewrite merge_sort_Permutation.
  apply mapM_Some_1 in Hout.
  rewrite list_elem_of_fmap. split.
  - intros (it & -> & (pushed & Hit & Hpushed)%list_elem_of_join).
    apply list_elem_of_lookup_1 in Hpushed as [i Hi].
    destruct (Forall2_lookup_r _ _ _ _ _ Hout Hi) as ([key d] & Hentry & Hpush).
    apply list_elem_of_lookup_2, elem_of_map_to_list in Hentry.
    destruct (push_item_ids idSet key d pushed Hpush (id it)) as [(Hkey & Hin & Hpos) _].
    { apply list_elem_of_fmap. eauto. }
    exists key, d. split_and!; [done | by rewrite Hkey | | done].
    by apply elem_of_list_to_set in Hin.
  - intros (key & d & Hentry & [= <-] & Hin & Hpos).
    apply elem_of_map_to_list, list_elem_of_lookup_1 in Hentry as [i Hi].
    destruct (Forall2_lookup_l _ _ _ _ _ Hout Hi) as (pushed & Hpushed & Hpush).
    destruct (push_item_ids idSet key d pushed Hpush (StringToNumber key)) as [_ Hback].
    assert (StringToNumber key ∈ id <$> pushed) as (it & Hit & Hitin)%list_elem_of_fmap.
    { apply Hback. split_and!; try done. by apply elem_of_list_to_set. }
    exists it. split; [done|].
    apply list_elem_of_join. exists pushed. split; [done|].
    by eapply list_elem_of_lookup_2.
Qed.
End projection.

(** ** Properties of the device list *)

Section status_update.
Context {rt : Runtime}.
Import P1.

Lemma with_status_other idx status dot it :
  num_strict_eq (id it) idx = false → with_status idx status dot it = it.
Proof. unfold with_status. by intros ->. Qed.

Lemma with_status_frame idx status dot it :
  same_but_status (with_status idx status dot it) it.
Proof. unfold with_status, same_but_status. by destruct (num_strict_eq _ _). Qed.

(** C8: a [status_update] notification keeps the list as long as it was and
    every item in its place; an item whose id is not the one named is left
    as it was, and an item whose id is named keeps its id, name, battery
    and position; if no item has the named id, the state is unchanged.
    Nothing is emitted but a line on the console (the warning for an id
    that is not a number, the error for one that cannot be converted): no
    item is offered or created. *)
Theorem status_update_touches_named_status_only
    (perm : permission) (props : list (string * jsval)) (st : State) :
  assoc "cmd" props = JStr "status_update" →
  let idx := named (assoc "idx" props) (assoc "id" props) in
  let st' := (on_message perm "Notify" (Some (JObj props)) st).1 in
  let out := (on_message perm "Notify" (Some (JObj props)) st).2 in
  out ⊆ [ConsoleWarn "Invalid device id:"; ConsoleError "Notify parse error"] ∧
  (is_Some idx → out ⊆ [ConsoleWarn "Invalid device id:"]) ∧
  itemsRef st' = itemsRef st ∧
  length (items st') = length (items st) ∧
  (∀ i it, items st !! i = Some it →
     ∃ it', items st' !! i = Some it' ∧ same_but_status it' it ∧
            (names idx it = false → it' = it)) ∧
  (Forall (λ it, names idx it = false) (items st) → st' = st).
Proof.
  intros Hcmd idx st' out. subst st' out. unfold on_message.
  cbn [String.eqb Ascii.eqb Bool.eqb negb get_prop].
  rewrite Hcmd. destruct (mapStatus _) as [status dot]. fold idx.
  destruct idx as [n|].
  2: { cbn [fst snd]. split_and!; [|by intros [? ?]|done..| |done].
       - intros e ->%list_elem_of_singleton.
         apply list_elem_of_further, list_elem_of_here.
       - intros i it Hit. exists it. split_and!; done. }
  destruct (isNaN n).
  { cbn [fst snd]. split_and!; [|done..| |done].
    - intros e ->%list_elem_of_singleton. apply list_elem_of_here.
    - intros i it Hit. exists it. split_and!; done. }
  cbn [is_string String.eqb Ascii.eqb Bool.eqb fst snd set_items items itemsRef names].
  split_and!;
    [apply list_subseteq_nil|intros _; apply list_subseteq_nil|done
    |by rewrite length_map| |].
  - intros i it Hit. exists (with_status n status dot it).
    split_and!; [by rewrite list_lookup_fmap, Hit | apply with_status_frame |].
    apply with_status_other.
  - intros Hall. destruct st as [its ref]. cbn [items itemsRef] in *.
    unfold set_items. cbn [items itemsRef]. f_equal.
    induction Hall as [|it its' Hit _ IH]; [done|].
    rewrite map_cons, with_status_other by done. by rewrite IH.
Qed.
End status_update.

(** ** Properties of the alert handler *)

Section registry_facts.
Context {rt : Runtime}.
Import P2.

Lemma assoc_set_prop_eq k v props : assoc k (set_prop k v props) = v.
Proof.
  induction props as [|[k' v'] props IH]; simpl.
  - by rewrite String.eqb_refl.
  - destruct (String.eqb k k') eqn:Hk; simpl.
    + by rewrite String.eqb_refl.
    + by rewrite Hk.
Qed.

Lemma assoc_set_prop_ne k k' v props :
  k' ≠ k → assoc k' (set_prop k v props) = assoc k' props.
Proof.
  intros Hne. induction props as [|[k'' v''] props IH]; simpl.
  - by apply String.eqb_neq in Hne as ->.
  - destruct (String.eqb k k'') eqn:Hk; simpl.
    + apply String.eqb_eq in Hk as <-. by apply String.eqb_neq in Hne as ->.
    + by rewrite IH.
Qed.

Lemma set_recent_other key key' arr (m : RawDeviceMap) :
  key' ≠ key → set_recent key arr m !! key' = m !! key'.
Proof.
  intros Hne. unfold set_recent.
  destruct (m !! key) as [cur|]; [|done].
  destruct (truthy cur); [|done].
  by rewrite lookup_insert_ne.
Qed.

Lemma set_recent_record key arr (m : RawDeviceMap) dprops :
  m !! key = Some (JObj dprops) →
  set_recent key arr m !! key = Some (JObj (set_prop "recent_obj" arr dprops)).
Proof.
  intros Hdev. unfold set_recent. rewrite Hdev. cbn [truthy spread].
  by rewrite lookup_insert_eq.
Qed.

Lemma set_recent_absent key arr (m : RawDeviceMap) :
  m !! key = None → set_recent key arr m = m.
Proof. intros Hdev. unfold set_recent. by rewrite Hdev. Qed.
End registry_facts.

Section alerts.
Context {rt : Runtime}.
Import P2.

(** The alert branch on a well-formed notification. *)
Lemma on_message_alert hhmm props n x y z rest tx ty tz st :
  assoc "cmd" props = JStr "alert" →
  to_num (nullish (assoc "id" props) (assoc "idx" props)) = Some n →
  isFinite n = true →
  assoc "recent_obj" props = JArr (x :: y :: z :: rest) →
  to_str x = Some tx → to_str y = Some ty → to_str z = Some tz →
  on_message hhmm "Notify" (Some (JObj props)) st =
    (setAlertedIds (λ prev, prev ∪ {[n]})
       (setRawMap (set_recent (NumberToString n) (JArr [JStr tx; JStr ty; JStr tz]))
          (set_pendingSaves S st)),
     [ConsoleLog "payload";
      FetchSaveAlert
        (JObj [("cmd", JStr "alert"); ("id", JNum n);
               ("recent_obj", JArr [JStr tx; JStr ty; JStr tz])]);
      Toast hhmm ty]).
Proof.
  intros Hcmd Hn Hfin Hrecent Hx Hy Hz. unfold on_message, on_alert.
  cbn [String.prefix String.eqb Ascii.eqb Bool.eqb toLowerCase lower get_prop].
  replace (String.eqb (toLowerCase "Notify") "notify") with true by (by vm_compute).
  replace (String.prefix "Response/" "Notify") with false by (by vm_compute).
  rewrite Hcmd, Hn, Hfin, Hrecent.
  cbn [truthy negb orb is_string three_strings].
  rewrite Hx, Hy, Hz. cbn [mbind option_bind].
  replace (String.eqb "alert" "alert") with true by (by vm_compute).
  done.
Qed.

(** C1, as the code has it: a notification on [Notify] with [cmd] "alert",
    a finite id and a tuple of at least three elements that [String] can
    convert puts the id into the alerted set, starts the save-alert request
    and raises the toast in one step.  In that step the registry changes
    under the key of the id only: a record there gets the three texts as
    its [recent_obj] and keeps its other properties; with nothing there the
    registry stays as it was.  When the request later settles, with
    whatever outcome, only the console is written, and the registry and the
    alerted set stay as they were. *)
Theorem alert_marks_and_notifies_whatever_the_gateway
    (hhmm : string) (props : list (string * jsval)) (n : number)
    (x y z : jsval) (rest : list jsval) (tx ty tz : string)
    (o : fetch_outcome) (st : State) :
  assoc "cmd" props = JStr "alert" →
  to_num (nullish (assoc "id" props) (assoc "idx" props)) = Some n →
  isFinite n = true →
  assoc "recent_obj" props = JArr (x :: y :: z :: rest) →
  to_str x = Some tx → to_str y = Some ty → to_str z = Some tz →
  let st1 := (on_message hhmm "Notify" (Some (JObj props)) st).1 in
  let out := (on_message hhmm "Notify" (Some (JObj props)) st).2 in
  let st2 := (on_save_alert_settled o st1).1 in
  n ∈ alertedIds st1 ∧
  Toast hhmm ty ∈ out ∧
  FetchSaveAlert
    (JObj [("cmd", JStr "alert"); ("id", JNum n);
           ("recent_obj", JArr [JStr tx; JStr ty; JStr tz])]) ∈ out ∧
  (∀ key, key ≠ NumberToString n → rawMap st1 !! key = rawMap st !! key) ∧
  (∀ dprops, rawMap st !! NumberToString n = Some (JObj dprops) →
     ∃ dprops',
       rawMap st1 !! NumberToString n = Some (JObj dprops') ∧
       assoc "recent_obj" dprops' = JArr [JStr tx; JStr ty; JStr tz] ∧
       ∀ name, name ≠ "recent_obj" → assoc name dprops' = assoc name dprops) ∧
  (rawMap st !! NumberToString n = None → rawMap st1 = rawMap st) ∧
  n ∈ alertedIds st2 ∧
  alertedIds st2 = alertedIds st1 ∧
  rawMap st2 = rawMap st1 ∧
  Forall is_console (on_save_alert_settled o st1).2.
Proof.
  intros Hcmd Hn Hfin Hrecent Hx Hy Hz st1 out st2. subst st1 out st2.
  rewrite (on_message_alert hhmm props n x y z rest tx ty tz st) by done.
  cbn [fst snd on_save_alert_settled set_pendingSaves setAlertedIds setRawMap
       rawMap alertedIds].
  split_and!.
  - apply elem_of_union_r, elem_of_singleton. done.
  - do 2 apply list_elem_of_further. apply list_elem_of_here.
  - apply list_elem_of_further, list_elem_of_here.
  - intros key Hkey. by apply set_recent_other.
  - intros dprops Hdev. eexists. split; [by apply set_recent_record|].
    split; [apply assoc_set_prop_eq | intros name Hname; by apply assoc_set_prop_ne].
  - apply set_recent_absent.
  - apply elem_of_union_r, elem_of_singleton. done.
  - done.
  - done.
  - destruct o; by repeat constructor.
Qed.

(** C10, as the code has it: when the registry has nothing under the key
    of the id, a notification with [cmd] "alert", a finite id and a tuple
    of at least three elements that [String] can convert leaves the
    registry as it was, and still starts the save-alert request, puts the
    id into the alerted set and raises the toast. *)
Theorem alert_for_unknown_device_still_saved_marked_notified
    (hhmm : string) (props : list (string * jsval)) (n : number)
    (x y z : jsval) (rest : list jsval) (tx ty tz : string) (st : State) :
  assoc "cmd" props = JStr "alert" →
  to_num (nullish (assoc "id" props) (assoc "idx" props)) = Some n →
  isFinite n = true →
  assoc "recent_obj" props = JArr (x :: y :: z :: rest) →
  to_str x = Some tx → to_str y = Some ty → to_str z = Some tz →
  rawMap st !! NumberToString n = None →
  let st1 := (on_message hhmm "Notify" (Some (JObj props)) st).1 in
  let out := (on_message hhmm "Notify" (Some (JObj props)) st).2 in
  rawMap st1 = rawMap st ∧
  FetchSaveAlert
    (JObj [("cmd", JStr "alert"); ("id", JNum n);
           ("recent_obj", JArr [JStr tx; JStr ty; JStr tz])]) ∈ out ∧
  n ∈ alertedIds st1 ∧
  alertedIds st1 = alertedIds st ∪ {[n]} ∧
  Toast hhmm ty ∈ out.
Proof.
  intros Hcmd Hn Hfin Hrecent Hx Hy Hz Habsent st1 out. subst st1 out.
  rewrite (on_message_alert hhmm props n x y z rest tx ty tz st) by done.
  cbn [fst snd setAlertedIds setRawMap set_pendingSaves rawMap alertedIds].
  split_and!.
  - by apply set_recent_absent.
  - apply list_elem_of_further, list_elem_of_here.
  - apply elem_of_union_r, elem_of_singleton. done.
  - done.
  - do 2 apply list_elem_of_further. apply list_elem_of_here.
Qed.
End alerts.

(** ** Properties of the broker session *)

Section session.
Context {rt : Runtime}.
Import P2.

Lemma no_keys_empty (m : RawDeviceMap) : no_keys m = true ↔ m = ∅.
Proof. unfold no_keys. rewrite Nat.eqb_eq. apply map_size_empty_iff. Qed.

Lemma FALLBACK_RAW_keys : no_keys FALLBACK_RAW = false.
Proof. by vm_compute. Qed.

Ltac handlers :=
  unfold on_message, on_alert, on_save_alert_settled, on_error, on_marker_click,
    publishPTZ, on_close, on_connect, on_fallback_timer, on_unmount;
  repeat case_match; intros; simplify_eq/=; try done.

(** The message handler writes the React state only. *)
Lemma on_message_closure hhmm topic payload st :
  closure (on_message hhmm topic payload st).1 = closure st ∧
  connected (on_message hhmm topic payload st).1 = connected st.
Proof. handlers. Qed.

(** Until the client connects, the timer fires or the view is left, the
    timer stays pending and [didConnect] stays false. *)
Lemma waiting_preserved evs st st' out :
  Forall (λ e, e ≠ FallbackTimer ∧ (∀ now, e ≠ Connect now) ∧ e ≠ Unmount) evs →
  run evs st = Some (st', out) →
  fallbackTimer st' = fallbackTimer st ∧ didConnect st' = didConnect st.
Proof.
  intros Hevs. revert st out.
  induction Hevs as [|e evs (Htimer & Hconnect & Hunmount) _ IH]; intros st out Hrun.
  { by simplify_eq/=. }
  cbn [run] in Hrun. destruct (enabled e st); [|done].
  destruct (handle e st) as [st1 out1] eqn:Hstep.
  destruct (run evs st1) as [[st2 out2]|] eqn:Hrest; [|done].
  simplify_eq/=. destruct (IH _ _ Hrest) as [-> ->].
  destruct e; try done; simpl in Hstep.
  - by specialize (Hconnect now).
  - pose proof (on_message_closure hhmm topic payload st) as [Hc _].
    rewrite Hstep in Hc. unfold closure in Hc. cbn [fst] in Hc.
    split; congruence.
  - revert Hstep. handlers.
  - revert Hstep. handlers.
  - revert Hstep. handlers.
  - revert Hstep. handlers.
  - revert Hstep. handlers.
  - revert Hstep. handlers.
  - revert Hstep. handlers.
  - revert Hstep. handlers.
Qed.

(** C6: from the mount of a view with ids, as long as the client has not
    connected (and the view is not left), the timer is still pending, and
    when it fires the registry is exactly the fallback dataset. *)
Theorem registry_is_fallback_after_timeout
    (ids : list number) (evs : list event) (st : State) (out : list effect) :
  ids ≠ [] →
  Forall (λ e, e ≠ FallbackTimer ∧ (∀ now, e ≠ Connect now) ∧ e ≠ Unmount) evs →
  run evs (mount ids) = Some (st, out) →
  enabled FallbackTimer st = true ∧
  rawMap (handle FallbackTimer st).1 = FALLBACK_RAW ∧
  connected (handle FallbackTimer st).1 = false.
Proof.
  intros Hids Hevs Hrun.
  destruct (waiting_preserved _ _ _ _ Hevs Hrun) as [Htimer Hdid].
  assert (fallbackTimer st = true) as Hpending.
  { rewrite Htimer. destruct ids; done. }
  cbn [enabled handle]. unfold on_fallback_timer.
  cbn [clearTimeout didConnect]. rewrite Hdid. done.
Qed.

Lemma session_inv_mount ids : session_inv (mount ids).
Proof. unfold session_inv, mount. simpl. naive_solver. Qed.

Lemma session_inv_step e st :
  session_inv st → enabled e st = true → session_inv (handle e st).1.
Proof.
  intros (Heff & Htimer & Hconn & Hraw) Hen. unfold session_inv.
  destruct e; cbn [handle].
  - (* the timer *)
    cbn [enabled] in Hen. specialize (Htimer Hen).
    unfold on_fallback_timer. cbn [clearTimeout didConnect]. rewrite Htimer.
    simpl. split_and!; [done | done | done | by right].
  - (* connect *)
    unfold on_connect. simpl. naive_solver.
  - (* a message: only on an open connection *)
    cbn [enabled] in Hen. apply andb_true_iff in Hen as [_ Hopen].
    destruct (on_message_closure hhmm topic payload st) as [Hc Hc'].
    unfold closure in Hc. injection Hc as _ Hdid Htm Hef _.
    rewrite Hc', Hdid, Htm, Hef.
    specialize (Hconn Hopen). split_and!; [done | done | done | congruence].
  - simpl. naive_solver.
  - (* close *)
    unfold on_close. rewrite Heff.
    replace (no_keys ∅) with true by (by vm_compute).
    destruct (didConnect st) eqn:Hdid;
      cbn [fst negb andb setConnected setRawMap rawMap connected didConnect
           fallbackTimer effectRawMap];
      rewrite ?Hdid; [by split_and!|].
    split_and!; [done | done | done |].
    intros _. destruct (no_keys (rawMap st)) eqn:Hkeys; [by right|].
    destruct (Hraw eq_refl) as [Hempty | Hfb]; [|by right].
    apply no_keys_empty in Hempty. congruence.
  - simpl. naive_solver.
  - simpl. naive_solver.
  - simpl. naive_solver.
  - simpl. naive_solver.
  - simpl. naive_solver.
  - unfold publishPTZ. repeat case_match; simpl; naive_solver.
  - simpl. naive_solver.
Qed.

Lemma session_inv_run evs st st' out :
  session_inv st → run evs st = Some (st', out) → session_inv st'.
Proof.
  revert st out. induction evs as [|e evs IH]; intros st out Hinv Hrun.
  { by simplify_eq/=. }
  cbn [run] in Hrun. destruct (enabled e st) eqn:Hen; [|done].
  pose proof (session_inv_step e st Hinv Hen) as Hinv'.
  destruct (handle e st) as [st1 out1].
  destruct (run evs st1) as [[st2 out2]|] eqn:Hrest; [|done].
  simplify_eq/=. eauto.
Qed.

Lemma session_inv_reachable st : reachable st → session_inv st.
Proof.
  intros (ids & evs & out & Hrun).
  eapply session_inv_run; [apply session_inv_mount | done].
Qed.

(** C7: in every reachable state, the timer, a transport error and a close
    leave a registry that is not empty as it is; when one of them changes
    the registry, the registry was empty, the client had never connected,
    and the registry becomes the fallback dataset; and a close before any
    connect does fill an empty registry with it. *)
Theorem fallback_only_fills_an_empty_registry (st : State) (e : event) :
  reachable st →
  enabled e st = true →
  may_fall_back e →
  let st' := (handle e st).1 in
  (rawMap st ≠ ∅ → rawMap st' = rawMap st) ∧
  (rawMap st' ≠ rawMap st →
     rawMap st = ∅ ∧ didConnect st = false ∧ rawMap st' = FALLBACK_RAW) ∧
  (e = Close → didConnect st = false → rawMap st = ∅ → rawMap st' = FALLBACK_RAW).
Proof.
  intros (Heff & Htimer & Hconn & Hraw)%session_inv_reachable Hen [-> | [-> | ->]] st';
    subst st'; cbn [handle].
  - cbn [enabled] in Hen. specialize (Htimer Hen).
    unfold on_fallback_timer. cbn [clearTimeout didConnect]. rewrite Htimer.
    cbn [negb fst setRawMap setConnected rawMap].
    destruct (Hraw Htimer) as [Hempty | Hfb]; split_and!; try done; naive_solver.
  - unfold on_error. cbn [fst]. naive_solver.
  - unfold on_close. rewrite Heff.
    destruct (didConnect st) eqn:Hdid; cbn [negb andb fst setConnected rawMap];
      [naive_solver|].
    replace (no_keys ∅) with true by (by vm_compute).
    cbn [setRawMap rawMap].
    destruct (no_keys (rawMap st)) eqn:Hkeys.
    + apply no_keys_empty in Hkeys. naive_solver.
    + split_and!; [done | done |].
      intros _ _ Hempty%no_keys_empty. congruence.
Qed.

(** C9, as the code has it: [publishPTZ] leaves the state alone and
    publishes exactly when the client handle is there and a device with a
    truthy id is selected, whatever [connected] says; what it publishes is
    one control message; and a run of presses in such a state publishes
    one message per press, in the order of the presses. *)
Theorem ptz_published_iff_client_and_selection
    (now : string) (dir : direction) (state : press) (st : State)
    (presses : list (string * direction * press)) :
  (publishPTZ now dir state st).1 = st ∧
  ((publishPTZ now dir state st).2 ≠ [] ↔
     clientRef st = true ∧ is_Some (selected (currentId st))) ∧
  (∀ id, clientRef st = true → selected (currentId st) = Some id →
     (publishPTZ now dir state st).2 = [control now dir state id] ∧
     (mounted st = true → cctvOpen st = true →
      run ((λ p, Pan p.1.1 p.1.2 p.2) <$> presses) st =
        Some (st, (λ p, control p.1.1 p.1.2 p.2 id) <$> presses))).
Proof.
  unfold publishPTZ. split_and!.
  - by repeat case_match.
  - repeat case_match; simpl; split; try done;
      try (by intros [? [? ?]]); by intros [? ?].
  - intros id Hclient Hsel. rewrite Hsel, Hclient. split; [done|].
    intros Hmounted Hopen.
    induction presses as [|[[now' dir'] state'] presses IH]; [done|].
    rewrite !fmap_cons. cbn [run enabled handle fst snd].
    rewrite Hmounted, Hopen, Hsel. cbn [andb].
    rewrite bool_decide_eq_true_2 by eauto.
    unfold publishPTZ. rewrite Hsel, Hclient.
    by rewrite IH.
Qed.
End session.

(** ** The views on the example engine *)

Section view_examples.
Import Examples P2.
Existing Instance decimal_runtime.

(** Registry [{1, 2, 3}] and user list [{1, 3, 4}] give the items 1 and 3. *)
Example items_1_3 :
  fmap (M:=list) id <$> items three_devices [int 1; int 3; int 4] = Some [int 1; int 3].
Proof. vm_compute. reflexivity. Qed.

(** A device without a position is off the map and still in the registry. *)
Example items_without_position :
  fmap (M:=list) id <$> items lost_device_3 [int 1; int 3; int 4] = Some [int 1] ∧
  is_Some (lost_device_3 !! "3").
Proof. split; [vm_compute; reflexivity | by eexists]. Qed.

(** C5, as stated, fails: with [null] in the registry under the key of a
    listed device, the projection throws and there is no item set at all;
    with the same registry and a list without that device it does not. *)
Lemma items_throw_on_a_listed_null_record :
  items null_device_1 [int 1; int 3; int 4] = None ∧
  fmap (M:=list) id <$> items null_device_1 [int 3; int 4] = Some [int 3].
Proof. split; vm_compute; reflexivity. Qed.

Lemma items_are_registry_meet_user_list_witness :
  ∃ its,
    items three_devices [int 1; int 3; int 4] = Some its ∧
    ∀ n, n ∈ id <$> its ↔
         ∃ key d, three_devices !! key = Some d ∧ to_num (JStr key) = Some n ∧
                  n ∈ [int 1; int 3; int 4] ∧ finite_position d.
Proof.
  pose (its := default [] (items three_devices [int 1; int 3; int 4])).
  assert (items three_devices [int 1; int 3; int 4] = Some its) as Hits
    by (vm_compute; reflexivity).
  exists its. split; [exact Hits|].
  exact (items_are_registry_meet_user_list three_devices [int 1; int 3; int 4] its Hits).
Defined.

Lemma live_reachable : reachable live.
Proof. exists [int 1; int 2; int 3], live_events, (from_option snd [] (run live_events (mount [int 1; int 2; int 3]))). by vm_compute. Qed.

(** The scenario: device 2 is in the registry; its record takes the new
    detection, device 2 is marked, and the request is sent. *)
Example alert_end_to_end :
  let st1 := (on_message "23:21" "Notify" (Some (JObj hog_at_2)) live).1 in
  rawMap st1 !! "2" ≫= (λ d, get_prop d "recent_obj") =
    Some (JArr [JStr "2025-05-01T23:21:52"; JStr "hog"; JStr "https://cam/2.jpg"]) ∧
  int 2 ∈ alertedIds st1 ∧
  (on_message "23:21" "Notify" (Some (JObj hog_at_2)) live).2 =
    [ConsoleLog "payload"; FetchSaveAlert (JObj hog_at_2); Toast "23:21" "hog"].
Proof.
  split_and!; [by vm_compute | | by vm_compute].
  apply (bool_decide_unpack _). by vm_compute.
Qed.

(** C1, as stated, fails: the notification names device 2 and carries a
    tuple of three elements, but [String] throws on the first of them; the
    handler ends in its [catch], and device 2 is not marked, no toast is
    raised and no request is started. *)
Lemma alert_with_unconvertible_tuple_is_dropped :
  to_str no_text = None ∧
  on_message "23:21" "Notify" (Some (JObj hog_at_2_no_time)) live =
    (live, [ConsoleLog "payload"; ConsoleError "MQTT message parse error:"]) ∧
  int 2 ∉ alertedIds live.
Proof.
  split_and!; [vm_compute; reflexivity | vm_compute; reflexivity |].
  apply (bool_decide_unpack _). vm_compute. exact I.
Qed.

Lemma alert_marks_and_notifies_whatever_the_gateway_witness :
  let st1 := (on_message "23:21" "Notify" (Some (JObj hog_at_2)) live).1 in
  let st2 := (on_save_alert_settled (ResponseStatus 500) st1).1 in
  int 2 ∈ alertedIds st2 ∧
  Toast "23:21" "hog" ∈ (on_message "23:21" "Notify" (Some (JObj hog_at_2)) live).2 ∧
  FetchSaveAlert (JObj hog_at_2) ∈ (on_message "23:21" "Notify" (Some (JObj hog_at_2)) live).2 ∧
  rawMap st2 !! "1" = rawMap live !! "1".
Proof.
  destruct (alert_marks_and_notifies_whatever_the_gateway "23:21" hog_at_2 (int 2)
              (JStr "2025-05-01T23:21:52") (JStr "hog") (JStr "https://cam/2.jpg") []
              "2025-05-01T23:21:52" "hog" "https://cam/2.jpg"
              (ResponseStatus 500) live)
    as (_ & Htoast & Hfetch & Hother & _ & _ & Hmark & _ & Hsame & _);
    [reflexivity | vm_compute; reflexivity | reflexivity | reflexivity
     | reflexivity | reflexivity | reflexivity |].
  split_and!; [exact Hmark | exact Htoast | exact Hfetch |].
  rewrite Hsame. apply Hother. discriminate.
Defined.

(** C10, as stated, fails: the notification names device 7, which the
    registry does not have, and carries a tuple of three elements, but
    [String] throws on the first of them; no request is started, device 7
    is not marked and no toast is raised. *)
Lemma alert_for_unknown_device_with_unconvertible_tuple_is_dropped :
  rawMap live !! "7" = None ∧
  on_message "23:21" "Notify" (Some (JObj hog_at_7_no_time)) live =
    (live, [ConsoleLog "payload"; ConsoleError "MQTT message parse error:"]) ∧
  int 7 ∉ alertedIds live.
Proof.
  split_and!; [vm_compute; reflexivity | vm_compute; reflexivity |].
  apply (bool_decide_unpack _). vm_compute. exact I.
Qed.

Lemma alert_for_unknown_device_still_saved_marked_notified_witness :
  let st1 := (on_message "23:21" "Notify" (Some (JObj hog_at_7)) live).1 in
  rawMap live !! "7" = None ∧
  rawMap st1 = rawMap live ∧
  FetchSaveAlert (JObj hog_at_7) ∈ (on_message "23:21" "Notify" (Some (JObj hog_at_7)) live).2 ∧
  int 7 ∈ alertedIds st1 ∧
  Toast "23:21" "hog" ∈ (on_message "23:21" "Notify" (Some (JObj hog_at_7)) live).2.
Proof.
  assert (rawMap live !! "7" = None) as Habsent by (vm_compute; reflexivity).
  split; [exact Habsent|].
  destruct (alert_for_unknown_device_still_saved_marked_notified "23:21" hog_at_7 (int 7)
              (JStr "2025-05-01T23:21:52") (JStr "hog") (JStr "https://cam/7.jpg") []
              "2025-05-01T23:21:52" "hog" "https://cam/7.jpg" live)
    as (Hraw & Hfetch & Hmark & _ & Htoast);
    [reflexivity | vm_compute; reflexivity | reflexivity | reflexivity
     | reflexivity | reflexivity | reflexivity | exact Habsent |].
  split_and!; [exact Hraw | exact Hfetch | exact Hmark | exact Htoast].
Defined.

Lemma registry_is_fallback_after_timeout_witness :
  ∃ st out,
    run silent_events (mount [int 1; int 3]) = Some (st, out) ∧
    enabled FallbackTimer st = true ∧
    rawMap (handle FallbackTimer st).1 = FALLBACK_RAW ∧
    connected (handle FallbackTimer st).1 = false.
Proof.
  pose (st := from_option fst (mount []) (run silent_events (mount [int 1; int 3]))).
  pose (out := from_option snd [] (run silent_events (mount [int 1; int 3]))).
  assert (run silent_events (mount [int 1; int 3]) = Some (st, out)) as Hrun
    by (vm_compute; reflexivity).
  exists st, out. split; [exact Hrun|].
  apply (registry_is_fallback_after_timeout [int 1; int 3] silent_events st out);
    [discriminate | | exact Hrun].
  repeat constructor; discriminate.
Defined.

Lemma fallback_only_fills_an_empty_registry_witness :
  reachable live ∧ enabled Close live = true ∧
  rawMap live ≠ ∅ ∧
  rawMap (handle Close live).1 = rawMap live.
Proof.
  assert (rawMap live ≠ ∅) as Hlive.
  { intros Hempty%no_keys_empty. vm_compute in Hempty. discriminate. }
  split_and!; [exact live_reachable | reflexivity | exact Hlive |].
  destruct (fallback_only_fills_an_empty_registry live Close live_reachable eq_refl)
    as (Hkept & _).
  - right. right. reflexivity.
  - exact (Hkept Hlive).
Defined.

(** C9, as stated, fails: the broker never answers, the timer brings in the
    fallback dataset, the user selects device 1, opens the camera and
    presses "left"; the control message is published although the session
    has not connected. *)
Lemma ptz_published_while_not_connected :
  ∃ st,
    run [FallbackTimer; MarkerClick (int 1); OpenCctv; Pan "12:00:04" left start]
        (mount [int 1]) =
      Some (st, [ConsoleWarn "MQTT connect timeout → using FALLBACK_RAW";
                 Publish "CONTROL/device/1"
                   (JObj [("user", JStr "AA-BB-CC-DD-EE-FF");
                          ("timestamp", JStr "12:00:04");
                          ("commend", JStr "left"); ("id", JNum (int 1))])]) ∧
    connected st = false ∧ didConnect st = false.
Proof. eexists. split_and!; [vm_compute; reflexivity | reflexivity | reflexivity]. Qed.
End view_examples.

(** ** The device list on the example engine *)

Section list_examples.
Import Examples P1.
Existing Instance decimal_runtime.

Example status_update_of_2 :
  on_message prompt "Notify" (Some (JObj stake_2_bad)) two_stakes =
    ({| items := [stake 1 "정상" "green"; stake 2 "고장" "red"];
        itemsRef := itemsRef two_stakes |}, []).
Proof. by vm_compute. Qed.

Example status_update_of_unknown :
  on_message prompt "Notify"
    (Some (JObj [("cmd", JStr "status_update"); ("idx", JStr "9"); ("status", JStr "OFF")]))
    two_stakes = (two_stakes, []).
Proof. by vm_compute. Qed.

Lemma status_update_touches_named_status_only_witness :
  let st' := (on_message prompt "Notify" (Some (JObj stake_2_bad)) two_stakes).1 in
  length (items st') = 2 ∧
  ∃ it', items st' !! 0 = Some it' ∧ it' = stake 1 "정상" "green".
Proof.
  destruct (status_update_touches_named_status_only prompt stake_2_bad two_stakes eq_refl)
    as (_ & _ & _ & Hlen & Hframe & _).
  split; [exact Hlen|].
  destruct (Hframe 0 (stake 1 "정상" "green") eq_refl) as (it' & Hit' & _ & Hsame).
  exists it'. split; [exact Hit'|]. apply Hsame. vm_compute. reflexivity.
Defined.
End list_examples.

(** ** More about the gateway *)

Section gateway_more.
Context {rt : Runtime} {db : Storage}.

(** X1: a save-alert request with an object body is left unanswered
    exactly when [recent_obj] is truthy and its [length] cannot be converted
    to a number.  An answer has status 200, 400 or 500; a 400 comes with the
    table as it was, and so does a 500 as long as [String] can convert the
    id and the event time (if not, the log line after an accepted insert
    throws, and the 500 comes with the row stored). *)
Theorem save_alert_changes_table_only_on_200 (props : list (string * jsval)) (t : table) :
  let id := assoc "id" props in
  let recent_obj := assoc "recent_obj" props in
  (save_alert (JObj props) t = None ↔
     truthy recent_obj = true ∧ to_num (js_length recent_obj) = None) ∧
  (∀ resp t', save_alert (JObj props) t = Some (resp, t') →
     (status resp = 200 ∨ status resp = 400 ∨ status resp = 500) ∧
     (status resp = 400 → t' = t) ∧
     (is_Some (to_str id) → is_Some (to_str (js_index recent_obj 0)) →
      status resp ≠ 200 → t' = t)).
Proof.
  intros id recent_obj. subst id recent_obj.
  unfold save_alert. cbn [get_prop mbind option_bind].
  destruct (truthy (assoc "recent_obj" props)); cbn [negb].
  2: { split; [split; [done | by intros [? _]]|].
       intros ? ? [= <- <-]. simpl. auto. }
  destruct (to_num (js_length (assoc "recent_obj" props))) as [len|];
    cbn [mbind option_bind].
  2: { split; [done | done]. }
  destruct (num_lt len (int 3));
    [|destruct (insert_alert _ _ _ _ _);
      [destruct (to_str (assoc "id" props));
       [destruct (to_str (js_index (assoc "recent_obj" props) 0))|]|]];
    (split; [split; [done | by intros [_ ?]]|]);
    intros ? ? [= <- <-]; simpl; (split_and!; [auto | done |]).
  - done.
  - intros _ _ Hno. by destruct Hno.
  - by intros _ [? ?].
  - by intros [? ?].
  - done.
Qed.

Lemma save_alert_ok_appends props n tm obj img t t' :
  assoc "id" props = JNum n →
  assoc "recent_obj" props = JArr [JStr tm; JStr obj; JStr img] →
  save_alert (JObj props) t =
    Some ({| status := 200; sent := Message "Alert saved successfully." |}, t') →
  t' = t ++ [Build_DBLogData n tm obj img].
Proof.
  intros Hid Hrecent Hsave.
  rewrite (save_alert_tuple _ _ _ _ _ _ Hrecent), Hid in Hsave.
  destruct (insert_alert _ _ _ _ _) as [t''|] eqn:Hins; [|done].
  apply insert_alert_appends in Hins. cbn in Hsave. by simplify_eq.
Qed.

(** X2: the gateway does not deduplicate: the same valid submission accepted
    twice leaves two equal rows at the end of the table. *)
Theorem save_alert_does_not_deduplicate
    (props : list (string * jsval)) (n : number) (tm obj img : string)
    (t t1 t2 : table) :
  assoc "id" props = JNum n →
  assoc "recent_obj" props = JArr [JStr tm; JStr obj; JStr img] →
  save_alert (JObj props) t =
    Some ({| status := 200; sent := Message "Alert saved successfully." |}, t1) →
  save_alert (JObj props) t1 =
    Some ({| status := 200; sent := Message "Alert saved successfully." |}, t2) →
  t2 = t ++ [Build_DBLogData n tm obj img; Build_DBLogData n tm obj img].
Proof.
  intros Hid Hrecent H1 H2.
  rewrite (save_alert_ok_appends _ _ _ _ _ _ _ Hid Hrecent H2).
  rewrite (save_alert_ok_appends _ _ _ _ _ _ _ Hid Hrecent H1).
  by rewrite <-app_assoc.
Qed.

(** X3: the answer to a save-alert request depends on the [id] and on the
    first three elements of [recent_obj] only: further elements and further
    properties of the body are ignored. *)
Theorem save_alert_reads_id_and_three_elements
    (props props' : list (string * jsval)) (x y z : jsval) (rest rest' : list jsval)
    (t : table) :
  assoc "id" props = assoc "id" props' →
  assoc "recent_obj" props = JArr (x :: y :: z :: rest) →
  assoc "recent_obj" props' = JArr (x :: y :: z :: rest') →
  save_alert (JObj props) t = save_alert (JObj props') t.
Proof.
  intros Hid Hrecent Hrecent'.
  rewrite (save_alert_tuple _ _ _ _ _ _ Hrecent), (save_alert_tuple _ _ _ _ _ _ Hrecent').
  by rewrite Hid.
Qed.

(** X4: the validation does not ask for an array: a string of three or more
    code units passes it, and its first three code units are what is handed
    to the insert. *)
Theorem save_alert_takes_a_string_by_its_characters
    (props : list (string * jsval)) (s u0 u1 u2 : string) (rest : list string)
    (t : table) :
  assoc "recent_obj" props = JStr s →
  CodeUnits s = u0 :: u1 :: u2 :: rest →
  save_alert (JObj props) t =
    match insert_alert t (assoc "id" props) (JStr u0) (JStr u1) (JStr u2) with
    | Some t' =>
        match to_str (assoc "id" props) with
        | Some _ =>
            Some ({| status := 200; sent := Message "Alert saved successfully." |}, t')
        | None => Some ({| status := 500; sent := Error "Failed to save alert." |}, t')
        end
    | None => Some ({| status := 500; sent := Error "Failed to save alert." |}, t)
    end.
Proof.
  intros Hrecent Hunits. unfold save_alert.
  cbn [get_prop mbind option_bind]. rewrite Hrecent.
  assert (String.eqb s "" = false) as Hs.
  { apply String.eqb_neq. intros Hs%CodeUnits_nil. by rewrite Hs in Hunits. }
  change (int 3) with (of_nat 3).
  cbn [truthy negb js_length js_index to_num mbind option_bind]. rewrite Hs, Hunits.
  cbn [negb]. rewrite num_lt_of_nat.
  rewrite bool_decide_eq_false_2 by (simpl; lia).
  cbn [lookup list_lookup to_str].
  destruct (insert_alert _ _ _ _ _); [|done]. by destruct (to_str _).
Qed.

(** X5: a recent-alerts answer with rows holds as many rows as the device
    has in the table, up to ten; up to ten, it holds them all. *)
Theorem recent_alerts_returns_all_up_to_ten
    (device_id_param : jsval) (t rows : table) :
  (recent_alerts device_id_param t).1 = {| status := 200; sent := Rows rows |} →
  ∃ n,
    to_num device_id_param = Some n ∧
    length rows = 10 `min` length (filter (of_device n) t) ∧
    (length (filter (of_device n) t) ≤ 10 → rows ≡ₚ filter (of_device n) t).
Proof.
  unfold recent_alerts. destruct (to_num _) as [n|]; [|done].
  destruct (isFinite _); [|done]. simpl.
  destruct (select_recent _ _) as [rows'|] eqn:Hsel; [|done].
  intros [= <-]. exists n. split; [done|].
  apply select_recent_sorted in Hsel as (arranged & Hperm & _ & ->).
  rewrite length_take, <-Hperm. split; [done|].
  intros Hle. by rewrite take_ge.
Qed.

(** X6: the first row of a recent-alerts answer is at least as new as every
    row the device has in the table, also those the limit cuts off; and
    there is a first row as soon as the device has a row. *)
Theorem recent_alerts_first_row_is_newest
    (device_id_param : jsval) (t rows : table) :
  (recent_alerts device_id_param t).1 = {| status := 200; sent := Rows rows |} →
  ∃ n,
    to_num device_id_param = Some n ∧
    (∀ r, r ∈ t → of_device n r → is_Some (rows !! 0)) ∧
    (∀ first r, rows !! 0 = Some first → r ∈ t → of_device n r →
       r = first ∨ time_le (event_time r) (event_time first)).
Proof.
  unfold recent_alerts. destruct (to_num _) as [n|]; [|done].
  destruct (isFinite _); [|done]. simpl.
  destruct (select_recent _ _) as [rows'|] eqn:Hsel; [|done].
  intros [= <-]. exists n. split; [done|].
  apply select_recent_sorted in Hsel as (arranged & Hperm & Hsorted & ->).
  assert (∀ r, r ∈ t → of_device n r → r ∈ arranged) as Hin.
  { intros r Hr Hdev. rewrite Hperm. by apply list_elem_of_filter. }
  split.
  - intros r Hr Hdev. specialize (Hin r Hr Hdev).
    destruct arranged; [by apply elem_of_nil in Hin | by eexists].
  - intros first r Hfirst Hr Hdev. specialize (Hin r Hr Hdev).
    destruct arranged as [|a arranged]; [done|].
    cbn in Hfirst. simplify_eq.
    apply StronglySorted_inv in Hsorted as [_ Hall].
    apply elem_of_cons in Hin as [-> | Hlater]; [by left | right].
    by eapply Forall_forall in Hall.
Qed.
End gateway_more.

Section gateway_more_examples.
Import Examples.
Existing Instance decimal_runtime.
Existing Instance text_table.

Lemma save_alert_does_not_deduplicate_witness :
  ∃ t2,
    save_alert hog_2_body (spring ++ [hog_2]) =
      Some ({| status := 200; sent := Message "Alert saved successfully." |}, t2) ∧
    t2 = spring ++ [hog_2; hog_2].
Proof.
  exists ((spring ++ [hog_2]) ++ [hog_2]).
  assert (save_alert hog_2_body (spring ++ [hog_2]) =
            Some ({| status := 200; sent := Message "Alert saved successfully." |},
                  (spring ++ [hog_2]) ++ [hog_2])) as H2 by (vm_compute; reflexivity).
  split; [exact H2|].
  apply (save_alert_does_not_deduplicate
           [("cmd", JStr "alert"); ("id", JNum (int 2));
            ("recent_obj", JArr [JStr "2025-05-01T23:21:52"; JStr "hog";
                                 JStr "data:image/jpeg;base64,AAAA"])]
           (int 2) "2025-05-01T23:21:52" "hog" "data:image/jpeg;base64,AAAA"
           spring (spring ++ [hog_2]));
    [reflexivity | reflexivity | vm_compute; reflexivity | exact H2].
Defined.

Lemma save_alert_reads_id_and_three_elements_witness :
  save_alert
    (JObj [("id", JNum (int 2));
           ("recent_obj", JArr [JStr "2025-05-01T23:21:52"; JStr "hog"; JStr ""; JNull]);
           ("battery", JStr "40")]) june =
  save_alert
    (JObj [("recent_obj", JArr [JStr "2025-05-01T23:21:52"; JStr "hog"; JStr ""]);
           ("id", JNum (int 2))]) june.
Proof.
  apply (save_alert_reads_id_and_three_elements _ _
           (JStr "2025-05-01T23:21:52") (JStr "hog") (JStr "") [JNull] []);
    reflexivity.
Defined.

Lemma save_alert_takes_a_string_by_its_characters_witness :
  save_alert (JObj [("id", JNum (int 2)); ("recent_obj", JStr "말뚝hog")]) june =
  Some ({| status := 200; sent := Message "Alert saved successfully." |},
        june ++ [Build_DBLogData (int 2) "말" "뚝" "h"]).
Proof.
  rewrite (save_alert_takes_a_string_by_its_characters
             [("id", JNum (int 2)); ("recent_obj", JStr "말뚝hog")]
             "말뚝hog" "말" "뚝" "h" ["o"; "g"] june eq_refl);
    vm_compute; reflexivity.
Defined.

Lemma recent_alerts_returns_all_up_to_ten_witness :
  ∃ rows,
    (recent_alerts (JStr "2") (june ++ [hog_2])).1 =
      {| status := 200; sent := Rows rows |} ∧
    length rows = 10 `min` length (filter (of_device (int 2)) (june ++ [hog_2])).
Proof.
  pose (rows := take 10 (merge_sort newer_first
                           (filter (of_device (int 2)) (june ++ [hog_2])))).
  exists rows.
  assert ((recent_alerts (JStr "2") (june ++ [hog_2])).1 =
          {| status := 200; sent := Rows rows |}) as Hget by (vm_compute; reflexivity).
  split; [exact Hget|].
  destruct (recent_alerts_returns_all_up_to_ten (JStr "2") (june ++ [hog_2]) rows Hget)
    as (n & Hn & Hlen & _).
  assert (Some n = Some (int 2)) as [= ->] by (rewrite <-Hn; vm_compute; reflexivity).
  exact Hlen.
Defined.

Lemma recent_alerts_first_row_is_newest_witness :
  ∃ rows,
    (recent_alerts (JStr "2") (spring ++ [hog_2])).1 =
      {| status := 200; sent := Rows rows |} ∧
    is_Some (rows !! 0).
Proof.
  pose (rows := take 10 (merge_sort newer_first
                           (filter (of_device (int 2)) (spring ++ [hog_2])))).
  exists rows.
  assert ((recent_alerts (JStr "2") (spring ++ [hog_2])).1 =
          {| status := 200; sent := Rows rows |}) as Hget by (vm_compute; reflexivity).
  split; [exact Hget|].
  destruct (recent_alerts_first_row_is_newest (JStr "2") (spring ++ [hog_2]) rows Hget)
    as (n & Hn & Hfirst & _).
  assert (Some n = Some (int 2)) as [= ->] by (rewrite <-Hn; vm_compute; reflexivity).
  apply (Hfirst hog_2).
  - apply elem_of_app. right. apply list_elem_of_singleton. reflexivity.
  - vm_compute. reflexivity.
Defined.
End gateway_more_examples.

(** ** More about the device list *)

Section list_more.
Context {rt : Runtime}.
Import P1.

Lemma num_strict_eq_iff (a b : number) :
  isNaN b = false → num_strict_eq a b = true ↔ a = b.
Proof.
  intros Hb. unfold num_strict_eq. destruct a; rewrite ?bool_decide_eq_true; try done.
  split; [done|]. intros <-. done.
Qed.

Lemma same_but_status_refl (l : list Item) : Forall2 same_but_status l l.
Proof. induction l; constructor; [by repeat split | done]. Qed.

Lemma with_status_all idx status dot (l : list Item) :
  Forall2 same_but_status (map (with_status idx status dot) l) l.
Proof. induction l; constructor; [apply with_status_frame | done]. Qed.

(** X7: whatever arrives from the broker, the list keeps its items in their
    places, each with its id, name, battery and position, and the mirror is
    not written: a message never adds, removes, renames or reorders. *)
Theorem notify_never_adds_or_removes
    (perm : permission) (topic : string) (payload : option jsval) (st : State) :
  itemsRef (on_message perm topic payload st).1 = itemsRef st ∧
  Forall2 same_but_status (items (on_message perm topic payload st).1) (items st).
Proof.
  unfold on_message.
  repeat case_match; cbn [fst set_items items itemsRef];
    (split; [done|]); first [apply same_but_status_refl | apply with_status_all].
Qed.

(** The [new_device] branch for a proper id. *)
Lemma on_message_new_device
    (perm : permission) (props : list (string * jsval)) (idx : number) (st : State) :
  assoc "cmd" props = JStr "new_device" →
  named (assoc "idx" props) (assoc "id" props) = Some idx →
  isNaN idx = false →
  (on_message perm "Notify" (Some (JObj props)) st).1 = st ∧
  ((∃ it, it ∈ itemsRef st ∧ id it = idx) →
     (on_message perm "Notify" (Some (JObj props)) st).2 = []) ∧
  ((∀ it, it ∈ itemsRef st → id it ≠ idx) →
     (on_message perm "Notify" (Some (JObj props)) st).2 =
       [NewDeviceToast idx (mapStatus (assoc "status" props)).1
          (mapStatus (assoc "status" props)).2
          (nullish (assoc "battery" props) (JStr ""))]).
Proof.
  intros Hcmd Hidx Hnan. unfold on_message.
  cbn [String.eqb Ascii.eqb Bool.eqb negb get_prop].
  rewrite Hcmd. destruct (mapStatus _) as [status dot]. rewrite Hidx, Hnan.
  cbn [is_string String.eqb Ascii.eqb Bool.eqb fst snd].
  destruct (existsb _ _) eqn:Hex; cbn [fst snd]; (split; [done|]); split; try done.
  - intros Hnone. apply existsb_exists in Hex as (it & Hit & Heq).
    apply num_strict_eq_iff in Heq; [|done].
    by destruct (Hnone it (proj2 (list_elem_of_In _ _) Hit)).
  - intros (it & Hit & Heq). exfalso.
    assert (existsb (λ it, num_strict_eq (id it) idx) (itemsRef st) = true) as Hex'.
    { apply existsb_exists. exists it. split; [by apply list_elem_of_In|].
      by apply num_strict_eq_iff. }
    congruence.
Qed.

(** X8: a [new_device] notification with a proper id never changes the state;
    it raises the offer when no item of the mirror has the id, and is silent
    when one has. *)
Theorem new_device_offered_iff_unknown
    (perm : permission) (props : list (string * jsval)) (idx : number) (st : State) :
  assoc "cmd" props = JStr "new_device" →
  named (assoc "idx" props) (assoc "id" props) = Some idx →
  isNaN idx = false →
  (on_message perm "Notify" (Some (JObj props)) st).1 = st ∧
  ((∃ it, it ∈ itemsRef st ∧ id it = idx) →
     (on_message perm "Notify" (Some (JObj props)) st).2 = []) ∧
  ((∀ it, it ∈ itemsRef st → id it ≠ idx) →
     (on_message perm "Notify" (Some (JObj props)) st).2 =
       [NewDeviceToast idx (mapStatus (assoc "status" props)).1
          (mapStatus (assoc "status" props)).2
          (nullish (assoc "battery" props) (JStr ""))]).
Proof. apply on_message_new_device. Qed.

(** X9: once an offer is accepted and the component has committed, a further
    [new_device] notification for that id is silent. *)
Theorem accepted_device_is_not_offered_again
    (perm : permission) (props : list (string * jsval)) (idx : number)
    (status dot battery : string) (st : State) :
  assoc "cmd" props = JStr "new_device" →
  named (assoc "idx" props) (assoc "id" props) = Some idx →
  isNaN idx = false →
  on_message perm "Notify" (Some (JObj props))
    (commit (accept_new_device idx status dot battery st)) =
  (commit (accept_new_device idx status dot battery st), []).
Proof.
  intros Hcmd Hidx Hnan.
  destruct (on_message_new_device perm props idx
              (commit (accept_new_device idx status dot battery st)) Hcmd Hidx Hnan)
    as (Hst & Hsilent & _).
  destruct (on_message _ _ _ _) as [st' out]. cbn [fst snd] in *.
  f_equal; [done|]. apply Hsilent.
  eexists. split.
  - unfold commit, accept_new_device, set_items. cbn [items itemsRef].
    apply elem_of_app. right. by apply list_elem_of_singleton.
  - done.
Qed.

(** X10: deleting the selected item removes every item of its id and keeps
    the others in their order; after the commit, a [new_device] notification
    for that id raises the offer again. *)
Theorem deleted_device_is_gone_and_offered_again
    (perm : permission) (props : list (string * jsval)) (sel : Item) (st : State) :
  assoc "cmd" props = JStr "new_device" →
  named (assoc "idx" props) (assoc "id" props) = Some (id sel) →
  isNaN (id sel) = false →
  let st' := commit (handleDelete sel st) in
  (∀ it, it ∈ items st' ↔ it ∈ items st ∧ id it ≠ id sel) ∧
  items st' `sublist_of` items st ∧
  (on_message perm "Notify" (Some (JObj props)) st').2 =
    [NewDeviceToast (id sel) (mapStatus (assoc "status" props)).1
       (mapStatus (assoc "status" props)).2
       (nullish (assoc "battery" props) (JStr ""))].
Proof.
  intros Hcmd Hidx Hnan st'.
  assert (∀ it, it ∈ items st' ↔ it ∈ items st ∧ id it ≠ id sel) as Hgone.
  { intros it. subst st'. unfold commit, handleDelete, set_items. cbn [items].
    rewrite list_elem_of_filter.
    assert (num_strict_eq (id it) (id sel) = false ↔ id it ≠ id sel) as ->; [|tauto].
    rewrite <-(num_strict_eq_iff _ _ Hnan). by destruct (num_strict_eq _ _). }
  split_and!; [done | apply sublist_filter |].
  destruct (on_message_new_device perm props (id sel) st' Hcmd Hidx Hnan)
    as (_ & _ & Hoffer).
  apply Hoffer.
  intros it Hit. apply Hgone. subst st'. by unfold commit in *.
Qed.

(** X11: an [alert] notification with a proper id leaves the list as it is
    and always raises the toast; the system notification is shown only with
    the permission granted, and the permission is asked for only while it is
    neither granted nor denied. *)
Theorem list_alert_toasts_and_respects_permission
    (perm : permission) (props : list (string * jsval)) (idx : number) (st : State) :
  assoc "cmd" props = JStr "alert" →
  named (assoc "idx" props) (assoc "id" props) = Some idx →
  isNaN idx = false →
  let out := (on_message perm "Notify" (Some (JObj props)) st).2 in
  (on_message perm "Notify" (Some (JObj props)) st).1 = st ∧
  ToastSuccess idx ∈ out ∧
  (ShowNotification idx ∈ out ↔ perm = granted) ∧
  (RequestPermission ∈ out ↔ perm = prompt).
Proof.
  intros Hcmd Hidx Hnan out. subst out. unfold on_message.
  cbn [String.eqb Ascii.eqb Bool.eqb negb get_prop].
  rewrite Hcmd. destruct (mapStatus _) as [status dot]. rewrite Hidx, Hnan.
  cbn [is_string String.eqb Ascii.eqb Bool.eqb].
  destruct perm; cbn [fst snd]; split_and!; try done;
    rewrite ?elem_of_cons, ?elem_of_nil; intuition congruence.
Qed.
End list_more.

(** ** Double taps and stored items *)

Section taps.
Import P1.

Lemma onClick_after_timeout (now now' : Z) (ref : option Z) :
  (now ≤ now')%Z → onClick now' (on_tap_timeout now ref) = onClick now' ref.
Proof.
  intros Hle. unfold on_tap_timeout, onClick, DOUBLE_TAP_INTERVAL.
  destruct (last_tap ref) as [t|] eqn:Hlast; rewrite ?Hlast; [|done].
  destruct (300 <=? now - t)%Z eqn:Hold; rewrite ?Hlast; [|done].
  cbn [last_tap]. apply Z.leb_le in Hold.
  by rewrite (proj2 (Z.ltb_ge (now' - t) 300)) by lia.
Qed.

Lemma menus_timers (evs : list tap_event) :
  ∀ since ref ref',
    clock since evs →
    (∀ now, (since ≤ now)%Z → onClick now ref = onClick now ref') →
    menus evs ref = menus (filter (λ e, is_tap e = true) evs) ref'.
Proof.
  induction evs as [|[now|now] evs IH]; intros since ref ref' Hclock Hsame; [done|..];
    destruct Hclock as [Hnow Hclock]; cbn [tap_time] in *.
  - rewrite filter_cons_True by done. cbn [menus].
    rewrite <-(Hsame now Hnow). destruct (onClick now ref) as [ref1 opened].
    f_equal. by apply (IH now).
  - rewrite filter_cons_False by done. cbn [menus].
    apply (IH now); [done|].
    intros now' Hnow'. rewrite onClick_after_timeout by done.
    apply Hsame. lia.
Qed.

(** X12: on a clock that does not run backwards, the timer a first tap sets
    is housekeeping only: which taps open the menu is the same as if no
    timer callback had run at all. *)
Theorem tap_timers_never_change_the_menus
    (since : Z) (evs : list tap_event) (lastTapRef : option Z) :
  clock since evs →
  menus evs lastTapRef = menus (filter (λ e, is_tap e = true) evs) lastTapRef.
Proof. intros Hclock. by apply (menus_timers evs since). Qed.

Lemma menus_burst (taps : list Z) :
  (burst taps → menus (Tap <$> taps) None = alternate false (length taps)) ∧
  (∀ prev, prev ≠ 0%Z → quick prev taps →
     menus (Tap <$> taps) (Some prev) = alternate true (length taps)).
Proof.
  induction taps as [|t taps [IHnone IHsome]]; [done|]. split.
  - intros [Ht Hquick]. rewrite fmap_cons. cbn [menus onClick last_tap length alternate negb].
    f_equal. by apply IHsome.
  - intros prev Hprev (Ht & Hgap & Hquick). rewrite fmap_cons.
    cbn [menus length alternate negb]. unfold onClick, last_tap.
    rewrite (proj2 (Z.eqb_neq prev 0)) by done.
    rewrite (proj2 (Z.ltb_lt (t - prev) DOUBLE_TAP_INTERVAL)) by done.
    f_equal. apply IHnone. destruct taps; [done|]. by destruct Hquick as (? & _ & ?).
Qed.

(** X13: in a burst of taps, each less than 300 ms after the one before, the
    menu opens on the second, the fourth, ... tap, and on no other: a double
    tap is used up by the menu it opens. *)
Theorem burst_opens_the_menu_on_every_second_tap (taps : list Z) :
  burst taps →
  menus (Tap <$> taps) None = alternate false (length taps).
Proof. apply menus_burst. Qed.

Lemma tap_timers_never_change_the_menus_witness :
  clock 1000 [Tap 1000; TapTimeout 1300; Tap 1310; Tap 1400; TapTimeout 1610] ∧
  menus [Tap 1000; TapTimeout 1300; Tap 1310; Tap 1400; TapTimeout 1610] None =
  menus [Tap 1000; Tap 1310; Tap 1400] None.
Proof.
  assert (clock 1000 [Tap 1000; TapTimeout 1300; Tap 1310; Tap 1400; TapTimeout 1610])
    as Hclock by (simpl; lia).
  split; [exact Hclock|].
  exact (tap_timers_never_change_the_menus 1000 _ None Hclock).
Defined.

Lemma burst_opens_the_menu_on_every_second_tap_witness :
  menus (Tap <$> [1000; 1100; 1250; 1500]%Z) None = [false; true; false; true].
Proof.
  apply (burst_opens_the_menu_on_every_second_tap [1000; 1100; 1250; 1500]%Z).
  unfold burst, quick, DOUBLE_TAP_INTERVAL. lia.
Defined.

(** X14: the ids the map view restores from the store are the finite ids of
    the items the list view restores from it, in the same order; every item
    the list view restores has a number other than NaN for [id]. *)
Theorem stored_ids_are_the_finite_ids_of_the_stored_items (stored : option jsval) :
  P2.loadIdsFromStorage stored =
    filter (λ n, isFinite n = true) (P2.stored_id <$> loadItems stored) ∧
  Forall (λ it, ∃ n, get_prop it "id" = Some (JNum n) ∧ isNaN n = false)
         (loadItems stored) ∧
  Forall (λ n, isFinite n = true) (P2.loadIdsFromStorage stored).
Proof.
  unfold P2.loadIdsFromStorage, loadItems.
  destruct stored as [[| | | | |arr|]|]; try done.
  split_and!.
  - induction arr as [|x arr IH]; [done|].
    rewrite fmap_cons, !filter_cons, IH.
    destruct (decide (has_id x = true)) as [Hx|Hx].
    + by rewrite fmap_cons, filter_cons.
    + destruct (decide _) as [Hfin|]; [|done]. exfalso. apply Hx.
      unfold P2.stored_id, has_id in *.
      destruct (truthy x); [|done]. destruct (get_prop x "id") as [[]|]; try done.
      by destruct n.
  - apply Forall_forall. intros it [Hit _]%list_elem_of_filter.
    unfold has_id in Hit. destruct (truthy it); [|done].
    destruct (get_prop it "id") as [[]|]; try done.
    eexists. split; [done|]. by apply negb_true_iff.
  - apply Forall_forall. by intros n [Hn _]%list_elem_of_filter.
Qed.
End taps.

(** ** Clock texts *)

Section clock_texts.
Import P2.

Lemma padStart_two_digits (n : nat) :
  n < 100 → padStart 2 "0" (pretty n) = two_digits n.
Proof.
  intros Hn.
  assert (Forall (λ n, padStart 2 "0" (pretty n) = two_digits n) (seq 0 100)) as Hall.
  { apply (bool_decide_unpack _). by vm_compute. }
  eapply Forall_forall in Hall; [done|]. apply elem_of_seq. lia.
Qed.

(** X15: for the hours, minutes and seconds of a clock, [nowHHMMSS] is the
    eight characters [HH:MM:SS], each field in two decimal digits. *)
Theorem nowHHMMSS_is_two_digits_each (hours minutes seconds : nat) :
  hours < 24 → minutes < 60 → seconds < 60 →
  nowHHMMSS hours minutes seconds =
    two_digits hours +:+ ":" +:+ two_digits minutes +:+ ":" +:+ two_digits seconds ∧
  String.length (nowHHMMSS hours minutes seconds) = 8.
Proof.
  intros Hh Hm Hs. unfold nowHHMMSS.
  rewrite !padStart_two_digits by lia. done.
Qed.

Lemma nowHHMMSS_is_two_digits_each_witness :
  nowHHMMSS 9 5 0 = "09:05:00" ∧ String.length (nowHHMMSS 9 5 0) = 8.
Proof.
  destruct (nowHHMMSS_is_two_digits_each 9 5 0) as [Htext Hlen]; [lia..|].
  split; [exact Htext | exact Hlen].
Defined.

(** X16: the text of [timeAgo] is chosen by the age in milliseconds: "just
    now" below 30 s (also for a time in the future), seconds from 30 to 59,
    minutes from 1 to 59, hours from 1 to 23, and days from 1 on; without a
    time the text is a dash, and a time that does not parse is shown as it
    is. *)
Theorem timeAgo_by_age (iso : string) (t now : Z) :
  iso ≠ "" →
  let age := (now - t)%Z in
  let text := timeAgo (Some iso) (Some t) now in
  timeAgo None (Some t) now = "-" ∧
  timeAgo (Some iso) None now = iso ∧
  ((age < 30000)%Z → text = "방금 전") ∧
  ((30000 ≤ age < 60000)%Z →
     ∃ n, (30 ≤ n < 60)%Z ∧ text = pretty n +:+ "초 전") ∧
  ((60000 ≤ age < 3600000)%Z →
     ∃ n, (1 ≤ n < 60)%Z ∧ text = pretty n +:+ "분 전") ∧
  ((3600000 ≤ age < 86400000)%Z →
     ∃ n, (1 ≤ n < 24)%Z ∧ text = pretty n +:+ "시간 전") ∧
  ((86400000 ≤ age)%Z →
     ∃ n, (1 ≤ n)%Z ∧ text = pretty n +:+ "일 전").
Proof.
  intros Hiso age text. subst text. unfold timeAgo. fold age.
  destruct iso as [|c iso]; [done|].
  set (sec := (age / 1000)%Z). set (min := (sec / 60)%Z).
  set (hour := (min / 60)%Z). set (day := (hour / 24)%Z).
  assert (age < 30000 ↔ sec < 30)%Z as H30
    by (subst sec; Z.to_euclidean_division_equations; lia).
  assert (age < 60000 ↔ sec < 60)%Z as H60
    by (subst sec; Z.to_euclidean_division_equations; lia).
  assert (age < 3600000 ↔ min < 60)%Z as Hmin
    by (subst min sec; Z.to_euclidean_division_equations; lia).
  assert (age < 86400000 ↔ hour < 24)%Z as Hhour
    by (subst hour min sec; Z.to_euclidean_division_equations; lia).
  assert (86400000 ≤ age → 1 ≤ day)%Z as Hday1
    by (subst day hour min sec; Z.to_euclidean_division_equations; lia).
  assert (1 ≤ min ↔ 60 ≤ sec)%Z as Hmin1
    by (subst min; Z.to_euclidean_division_equations; lia).
  assert (1 ≤ hour ↔ 60 ≤ min)%Z as Hhour1
    by (subst hour; Z.to_euclidean_division_equations; lia).
  split_and!; try done.
  - intros ?. rewrite (proj2 (Z.ltb_lt sec 30)) by lia. done.
  - intros ?. rewrite (proj2 (Z.ltb_ge sec 30)), (proj2 (Z.ltb_lt sec 60)) by lia.
    exists sec. split; [lia | done].
  - intros ?. rewrite (proj2 (Z.ltb_ge sec 30)), (proj2 (Z.ltb_ge sec 60)),
      (proj2 (Z.ltb_lt min 60)) by lia.
    exists min. split; [lia | done].
  - intros ?. rewrite (proj2 (Z.ltb_ge sec 30)), (proj2 (Z.ltb_ge sec 60)),
      (proj2 (Z.ltb_ge min 60)), (proj2 (Z.ltb_lt hour 24)) by lia.
    exists hour. split; [lia | done].
  - intros ?. rewrite (proj2 (Z.ltb_ge sec 30)), (proj2 (Z.ltb_ge sec 60)),
      (proj2 (Z.ltb_ge min 60)), (proj2 (Z.ltb_ge hour 24)) by lia.
    exists day. split; [lia | done].
Qed.

Lemma timeAgo_by_age_witness :
  timeAgo (Some "2025-05-01T23:21:52") (Some 1746141712000%Z) 1746141802500%Z =
    "1분 전".
Proof.
  destruct (timeAgo_by_age "2025-05-01T23:21:52" 1746141712000 1746141802500)
    as (_ & _ & _ & _ & Hminutes & _); [discriminate|].
  destruct Hminutes as (n & Hn & Htext); [lia|].
  vm_compute. reflexivity.
Defined.

(** X17: the hour of a log label, for a UTC hour: "A.M." with the hour for
    0, 1 and 10 to 12 (noon included); "P.M." with the hour less twelve from
    13 on; and, the texts being compared as texts, also "P.M." for the hours
    2 to 9, then with a negative hour. *)
Theorem hour_label_compares_texts (hours : nat) :
  hours < 24 →
  (13 ≤ hours → hour_label hours = ("P.M.", pretty (hours - 12))) ∧
  (hours ≤ 1 ∨ 10 ≤ hours ≤ 12 → hour_label hours = ("A.M.", pretty hours)) ∧
  (2 ≤ hours ≤ 9 → hour_label hours = ("P.M.", "-" +:+ pretty (12 - hours))).
Proof.
  intros Hh.
  assert (Forall (λ h,
            (13 ≤ h → hour_label h = ("P.M.", pretty (h - 12))) ∧
            (h ≤ 1 ∨ 10 ≤ h ≤ 12 → hour_label h = ("A.M.", pretty h)) ∧
            (2 ≤ h ≤ 9 → hour_label h = ("P.M.", "-" +:+ pretty (12 - h))))
          (seq 0 24)) as Hall.
  { apply (bool_decide_unpack _). by vm_compute. }
  eapply Forall_forall in Hall; [done|]. apply elem_of_seq. lia.
Qed.

Lemma hour_label_compares_texts_witness :
  hour_label 3 = ("P.M.", "-9") ∧ hour_label 12 = ("A.M.", "12") ∧
  hour_label 15 = ("P.M.", "3").
Proof.
  destruct (hour_label_compares_texts 3) as (_ & _ & Hnight); [lia|].
  destruct (hour_label_compares_texts 12) as (_ & Hnoon & _); [lia|].
  destruct (hour_label_compares_texts 15) as (Hday & _ & _); [lia|].
  split_and!; [exact (Hnight ltac:(lia)) | exact (Hnoon ltac:(lia)) | exact (Hday ltac:(lia))].
Defined.
End clock_texts.

(** ** More about the registry and the map items *)

Section registry_more.
Context {rt : Runtime}.
Import P2.

(** X18: an alert with a finite id and a tuple that [String] can convert,
    for a device whose record the registry holds, writes the three texts to
    [recent_obj] of that record and nothing else: every other property of
    the record and every other key of the registry is as before, and so are
    the connection flag and the selection. *)
Theorem alert_touches_recent_obj_of_the_device_only
    (hhmm : string) (props dprops : list (string * jsval)) (n : number)
    (x y z : jsval) (rest : list jsval) (tx ty tz : string) (st : State) :
  assoc "cmd" props = JStr "alert" →
  to_num (nullish (assoc "id" props) (assoc "idx" props)) = Some n →
  isFinite n = true →
  assoc "recent_obj" props = JArr (x :: y :: z :: rest) →
  to_str x = Some tx → to_str y = Some ty → to_str z = Some tz →
  rawMap st !! NumberToString n = Some (JObj dprops) →
  let st1 := (on_message hhmm "Notify" (Some (JObj props)) st).1 in
  (∃ dprops',
     rawMap st1 !! NumberToString n = Some (JObj dprops') ∧
     assoc "recent_obj" dprops' = JArr [JStr tx; JStr ty; JStr tz] ∧
     ∀ name, name ≠ "recent_obj" → assoc name dprops' = assoc name dprops) ∧
  (∀ key, key ≠ NumberToString n → rawMap st1 !! key = rawMap st !! key) ∧
  connected st1 = connected st ∧ currentId st1 = currentId st.
Proof.
  intros Hcmd Hn Hfin Hrecent Hx Hy Hz Hdev st1. subst st1.
  rewrite (on_message_alert hhmm props n x y z rest tx ty tz st) by done.
  cbn [fst setAlertedIds setRawMap set_pendingSaves rawMap connected currentId].
  split_and!; [|by intros key Hkey; apply set_recent_other|done..].
  eexists. split; [by apply set_recent_record|]. split.
  - apply assoc_set_prop_eq.
  - intros name Hname. by apply assoc_set_prop_ne.
Qed.

(** X19: for a record that the loop can read, the loop pushes for the
    record with its [recent_obj] replaced by a kept tuple what it pushes for
    the record itself, but for the item's most recent detection, which is
    the tuple: an alert changes what the map shows of a device in this one
    field.  If the loop throws on the new record it throws on the old one;
    it can throw on the old one alone only where [String] cannot convert the
    old detection. *)
Theorem alert_shows_in_the_recent_field_only
    (idSet : gset number) (key : string) (dprops : list (string * jsval))
    (tx ty tz : string) :
  let d := JObj dprops in
  let d' := JObj (set_prop "recent_obj" (JArr [JStr tx; JStr ty; JStr tz]) dprops) in
  (∀ pushed, push_item idSet (key, d) = Some pushed →
     push_item idSet (key, d') =
       Some (with_recent (Some {| time := tx; target := ty; image := tz |}) <$> pushed)) ∧
  (push_item idSet (key, d') = None → push_item idSet (key, d) = None) ∧
  (push_item idSet (key, d) = None → push_item idSet (key, d') ≠ None →
     three_strings (assoc "recent_obj" dprops) = None).
Proof.
  intros d d'. subst d d'. unfold push_item. cbn [get_prop mbind option_bind].
  rewrite assoc_set_prop_eq, !assoc_set_prop_ne by done.
  case_bool_decide; [|by split_and!; [intros ? [= <-]|..]].
  destruct (to_num (assoc "lat" dprops)); [|done].
  cbn [mbind option_bind].
  destruct (to_num (assoc "lng" dprops)); [|done].
  cbn [mbind option_bind].
  destruct (isFinite _ && isFinite _); [|by split_and!; [intros ? [= <-]|..]].
  destruct (mapStatus _) as [status dot].
  cbn [three_strings to_str mbind option_bind].
  destruct (three_strings (assoc "recent_obj" dprops)) as [r|];
    cbn [mbind option_bind];
    (destruct (to_str (nullish (assoc "battery" dprops) (JStr "")));
     cbn [mbind option_bind]);
    split_and!; try done.
  intros ? [= <-]. done.
Qed.
End registry_more.

Section items_more.
Context {rt : Runtime}.
Import P2.

Lemma by_id_finite (a b : Item) (x y : Qc) :
  id a = Fin x → id b = Fin y → by_id a b ↔ (x ≤ y)%Qc.
Proof.
  intros Ha Hb. unfold by_id. rewrite Ha, Hb. cbn [num_sub]. unfold int, num_lt.
  rewrite bool_decide_eq_false.
  change (Q2Qc (inject_Z 0)) with 0%Qc. unfold Qcminus.
  rewrite <-Qclt_minus_iff. split; [apply Qcnot_lt_le | apply Qcle_not_lt].
Qed.

#[local] Instance by_id_total : Total by_id.
Proof.
  intros a b. unfold by_id.
  destruct (id a) as [|sa|x], (id b) as [|sb|y]; cbn [num_sub num_lt int];
    try (by left); try (by right).
  - destruct sa, sb; cbn; auto.
  - destruct sa; cbn; auto.
  - destruct sb; cbn; auto.
  - rewrite !bool_decide_eq_false.
    change (Q2Qc (inject_Z 0)) with 0%Qc. unfold Qcminus.
    rewrite <-!Qclt_minus_iff.
    destruct (Qclt_le_dec y x) as [Hlt|Hle].
    + right. by apply Qcle_not_lt, Qclt_le_weak.
    + left. by apply Qcle_not_lt.
Qed.

(** What one turn of the loop pushes: nothing or one item, for a key in the
    set, at a finite position, with one of the three status pairs. *)
Lemma push_item_pushed (idSet : gset number) key d pushed it :
  push_item idSet (key, d) = Some pushed → it ∈ pushed →
  id it = StringToNumber key ∧ id it ∈ idSet ∧
  isFinite (lat it) = true ∧ isFinite (lng it) = true ∧
  (status it, statusDot it) ∈ [("정상", "green"); ("고장", "red"); ("꺼짐", "gray")].
Proof.
  unfold push_item. case_bool_decide as Hin; [|by intros [= <-] ?%elem_of_nil].
  destruct (get_prop d "lat") as [d_lat|]; [|done]. cbn [mbind option_bind].
  destruct (to_num d_lat) as [la|]; [|done]. cbn [mbind option_bind].
  destruct (get_prop d "lng") as [d_lng|]; [|done]. cbn [mbind option_bind].
  destruct (to_num d_lng) as [lo|]; [|done]. cbn [mbind option_bind].
  destruct (isFinite la) eqn:Hlat; [|by intros [= <-] ?%elem_of_nil].
  destruct (isFinite lo) eqn:Hlng; [|by intros [= <-] ?%elem_of_nil].
  cbn [andb].
  destruct (get_prop d "status") as [d_status|]; [|done]. cbn [mbind option_bind].
  destruct (mapStatus d_status) as [status dot] eqn:Hstatus.
  destruct (get_prop d "recent_obj"); [|done]. cbn [mbind option_bind].
  destruct (three_strings _); [|done]. cbn [mbind option_bind].
  destruct (get_prop d "battery"); [|done]. cbn [mbind option_bind].
  destruct (to_str _); [|done]. cbn [mbind option_bind].
  intros [= <-] ->%list_elem_of_singleton. cbn.
  split_and!; try done.
  unfold mapStatus in Hstatus.
  repeat case_match; simplify_eq;
    rewrite !elem_of_cons; auto.
Qed.

Lemma push_item_throws (idSet : gset number) key d :
  push_item idSet (key, d) = None ↔ StringToNumber key ∈ idSet ∧ unreadable d.
Proof.
  unfold push_item, unreadable. case_bool_decide as Hin.
  2: { split; [done | by intros [? _]]. }
  assert (is_nullish d = true ∧ (∀ name, get_prop d name = None) ∨
          ∃ own, is_nullish d = false ∧ ∀ name, get_prop d name = Some (own name))
    as [[Hnull Hown] | (own & Hnull & Hown)].
  { destruct d; simpl; eauto. }
  { rewrite !Hown. cbn [mbind option_bind]. split; [by auto | done]. }
  rewrite !Hown. cbn [mbind option_bind].
  destruct (to_num (own "lat")) as [la|] eqn:Hla; cbn [mbind option_bind].
  2: { split; [intros _; split; [done|] | done]. right. left.
       exists (own "lat"). auto. }
  destruct (to_num (own "lng")) as [lo|] eqn:Hlo; cbn [mbind option_bind].
  2: { split; [intros _; split; [done|] | done]. right. left.
       exists (own "lng"). auto. }
  assert (isFinite la && isFinite lo = true ↔ finite_position d) as Hpos.
  { unfold finite_position. rewrite andb_true_iff. split.
    - intros [? ?]. exists (own "lat"), (own "lng"), la, lo. by rewrite !Hown.
    - intros (? & ? & ? & ? & Hgla & Hglo & ? & ? & ? & ?).
      rewrite Hown in Hgla, Hglo. by simplify_eq. }
  assert (∀ v, Some (own "lat") = Some v ∨ Some (own "lng") = Some v →
               to_num v ≠ None) as Hcoord.
  { intros v [[= <-] | [= <-]]; congruence. }
  destruct (isFinite la && isFinite lo) eqn:Hfin.
  2: { split; [done|]. intros [_ [? | [(v & Hv & ?) | [Hfp _]]]];
         [congruence | by destruct (Hcoord v Hv) | apply Hpos in Hfp; done]. }
  destruct (mapStatus _) as [status dot].
  destruct (three_strings (own "recent_obj")) as [r|] eqn:Hrec; cbn [mbind option_bind].
  2: { split; [intros _; split; [done|] | done]. right. right.
       split; [by apply Hpos|]. left. exists (own "recent_obj"). auto. }
  destruct (to_str (nullish (own "battery") (JStr ""))) as [b|] eqn:Hbat;
    cbn [mbind option_bind].
  2: { split; [intros _; split; [done|] | done]. right. right.
       split; [by apply Hpos|]. right. exists (own "battery"). auto. }
  split; [done|].
  intros [_ [? | [(v & Hv & ?) | [_ [(v & Hv & ?) | (v & Hv & ?)]]]]];
    [congruence | by destruct (Hcoord v Hv) | |];
    simplify_eq; congruence.
Qed.

(** X20: when the items can be computed, they come out sorted by id, no
    item before one of smaller id; each item has an id of the user's list,
    a finite position and one of the three pairs of status and dot. *)
Theorem items_are_sorted_finite_and_listed
    (rawMap : RawDeviceMap) (ids : list number) (its : list Item) :
  items rawMap ids = Some its →
  Sorted by_id its ∧
  (∀ a b x y, id a = Fin x → id b = Fin y → by_id a b ↔ (x ≤ y)%Qc) ∧
  Forall (λ it, id it ∈ ids ∧ isFinite (lat it) = true ∧ isFinite (lng it) = true ∧
                (status it, statusDot it) ∈
                  [("정상", "green"); ("고장", "red"); ("꺼짐", "gray")]) its.
Proof.
  unfold items. intros Hits.
  destruct (mapM _ _) as [out|] eqn:Hout; [|done]. cbn in Hits. simplify_eq.
  split_and!; [apply (Sorted_merge_sort by_id) | apply by_id_finite |].
  apply Forall_forall. intros it Hit. rewrite merge_sort_Permutation in Hit.
  apply list_elem_of_join in Hit as (pushed & Hit & Hpushed).
  apply list_elem_of_lookup_1 in Hpushed as [i Hi].
  apply mapM_Some_1 in Hout.
  destruct (Forall2_lookup_r _ _ _ _ _ Hout Hi) as ([key d] & _ & Hpush).
  destruct (push_item_pushed _ _ _ _ _ Hpush Hit) as (_ & Hin & ? & ? & ?).
  split_and!; try done. by apply elem_of_list_to_set in Hin.
Qed.

(** X21: computing the items throws exactly when the registry holds, under
    a key whose number is in the user's list, a record that cannot be read:
    [null], or a record with a coordinate that [Number] cannot convert, or a
    record at a finite position with a detection or a battery that [String]
    cannot convert.  Such a record under any other key does no harm, and
    without ids nothing can throw. *)
Theorem items_throw_iff_a_listed_record_is_unreadable
    (rawMap : RawDeviceMap) (ids : list number) :
  (items rawMap ids = None ↔
     ∃ key d, rawMap !! key = Some d ∧ StringToNumber key ∈ ids ∧ unreadable d) ∧
  items rawMap [] = Some [] ∧
  items ∅ ids = Some [].
Proof.
  split_and!.
  - unfold items. split.
    + destruct (mapM _ _) as [out|] eqn:Hout; [done|]. intros _.
      apply mapM_None_1, Exists_exists in Hout as ([key d] & Hentry & Hnone).
      apply elem_of_map_to_list in Hentry.
      apply push_item_throws in Hnone as [Hin Hnull].
      exists key, d. split_and!; try done. by apply elem_of_list_to_set in Hin.
    + intros (key & d & Hentry & Hin & Hnull).
      rewrite (mapM_None_2 (push_item (list_to_set ids)) (map_to_list rawMap)); [done|].
      apply Exists_exists. exists (key, d). split; [by apply elem_of_map_to_list|].
      apply push_item_throws. split; [by apply elem_of_list_to_set | done].
  - unfold items.
    assert (mapM (push_item (list_to_set [])) (map_to_list rawMap) =
            Some ((λ _, []) <$> map_to_list rawMap)) as ->.
    { apply mapM_Some_2. apply Forall2_fmap_r, Forall_Forall2_diag, Forall_forall.
      intros [key d] _. unfold push_item. by rewrite bool_decide_eq_false_2 by set_solver. }
    cbn [mbind option_bind]. f_equal.
    assert (mjoin ((λ _ : string * jsval, @nil Item) <$> map_to_list rawMap) = []) as ->; [|done].
    induction (map_to_list rawMap); [done|]. by rewrite fmap_cons.
  - unfold items. by rewrite map_to_list_empty.
Qed.
End items_more.

(** ** More about the broker session *)

Section session_more.
Context {rt : Runtime}.
Import P2.

Ltac crunch :=
  unfold on_message, on_alert, on_save_alert_settled, on_error, on_marker_click,
    publishPTZ, on_close, on_connect, on_fallback_timer, on_unmount;
  repeat case_match; intros; simplify_eq/=; try done.

(** X22: the alerted mark of a device is taken away by the click on its
    marker and by nothing else: every other event leaves at least the marks
    there were, and the click takes away the one of the clicked device,
    selects it, and leaves the registry alone. *)
Theorem alerted_mark_is_cleared_by_the_marker_click_only (e : event) (st : State) :
  ((∀ it_id, e ≠ MarkerClick it_id) →
     alertedIds st ⊆ alertedIds (handle e st).1) ∧
  (∀ it_id, e = MarkerClick it_id →
     alertedIds (handle e st).1 = alertedIds st ∖ {[it_id]} ∧
     currentId (handle e st).1 = Some it_id ∧
     rawMap (handle e st).1 = rawMap st).
Proof.
  split.
  - intros Hclick. destruct e; cbn [handle]; try (by crunch).
    + crunch. apply union_subseteq_l.
    + by destruct (Hclick it_id).
  - intros it_id ->. done.
Qed.

(** X23: on [Notify], everything but a well-formed alert is dropped by the
    map view: a value that is no object, another [cmd] (a status update, a
    new device), an id that is not a finite number, or a [recent_obj] that is
    no array of at least three elements leaves the state as it is, and only
    the payload is logged; an alert whose id [Number] cannot convert also
    logs the error of the [catch]. *)
Theorem notify_drops_what_is_no_alert (hhmm : string) (msg : jsval) (st : State) :
  (∀ props, msg = JObj props →
     assoc "cmd" props ≠ JStr "alert" ∨
     (∀ n, to_num (nullish (assoc "id" props) (assoc "idx" props)) = Some n →
           isFinite n = false) ∨
     (∀ x y z rest, assoc "recent_obj" props ≠ JArr (x :: y :: z :: rest))) →
  (on_message hhmm "Notify" (Some msg) st).1 = st ∧
  ((on_message hhmm "Notify" (Some msg) st).2 = [ConsoleLog "payload"] ∨
   (on_message hhmm "Notify" (Some msg) st).2 =
     [ConsoleLog "payload"; ConsoleError "MQTT message parse error:"]) ∧
  ((∀ props, msg = JObj props → assoc "cmd" props = JStr "alert" →
      is_Some (to_num (nullish (assoc "id" props) (assoc "idx" props)))) →
   (on_message hhmm "Notify" (Some msg) st).2 = [ConsoleLog "payload"]).
Proof.
  intros Hbad. unfold on_message.
  replace (String.prefix "Response/" "Notify") with false by (by vm_compute).
  replace (String.eqb (toLowerCase "Notify") "notify") with true by (by vm_compute).
  unfold on_alert.
  destruct msg as [| | | | | |props]; cbn [get_prop truthy negb orb is_string fst snd];
    try (by auto).
  - destruct b; cbn; auto.
  - destruct n as [| |q]; cbn [truthy negb orb fst snd]; auto.
    destruct (bool_decide _); cbn; auto.
  - destruct (negb _); cbn; auto.
  - destruct (assoc "cmd" props) as [| | | |c| |] eqn:Hcmd; cbn [is_string negb fst snd];
      try (by auto).
    destruct (String.eqb_spec c "alert") as [->|Hc]; cbn [negb fst snd]; [|by auto].
    destruct (to_num (nullish (assoc "id" props) (assoc "idx" props))) as [n|] eqn:Hn.
    2: { cbn [fst snd]. split_and!; [done | by right |].
         intros Hconv. destruct (Hconv props eq_refl Hcmd) as [? ?]. congruence. }
    destruct (isFinite n) eqn:Hfin; cbn [negb fst snd]; [|by auto].
    destruct (Hbad props eq_refl) as [? | [Hid | Hrecent]]; [done | |].
    { specialize (Hid n Hn). congruence. }
    destruct (assoc "recent_obj" props) as [| | | | |[|x [|y [|z rest]]]|];
      cbn [three_strings fst snd]; try (by auto).
    by destruct (Hrecent x y z rest).
Qed.

(** The view without ids, before and after it is left. *)
Lemma run_without_ids (evs : list event) :
  ∀ st st' out,
    st = mount [] ∨ st = teardown (mount []) →
    run evs st = Some (st', out) →
    (st' = mount [] ∨ st' = teardown (mount [])) ∧ out = [].
Proof.
  induction evs as [|e evs IH]; intros st st' out Hst Hrun.
  { by simplify_eq/=. }
  cbn [run] in Hrun. destruct (enabled e st) eqn:Hen; [|done].
  destruct (handle e st) as [st1 out1] eqn:Hstep.
  destruct (run evs st1) as [[st2 out2]|] eqn:Hrest; [|done].
  simplify_eq/=.
  assert ((st1 = mount [] ∨ st1 = teardown (mount [])) ∧ out1 = []) as [Hst1 ->].
  { destruct Hst as [-> | ->]; destruct e; cbn in Hen; try done;
      cbn in Hstep; unfold on_unmount in Hstep; cbn in Hstep; simplify_eq; auto. }
  destruct (IH _ _ _ Hst1 Hrest) as [? ->]. done.
Qed.

(** X24: a view mounted without ids opens no session: whatever happens, the
    registry stays empty, nothing is marked, the view never counts as
    connected, and nothing at all is emitted: no subscription, no publish,
    no request. *)
Theorem no_ids_no_session (evs : list event) (st : State) (out : list effect) :
  run evs (mount []) = Some (st, out) →
  rawMap st = ∅ ∧ alertedIds st = ∅ ∧ connected st = false ∧
  clientRef st = false ∧ out = [].
Proof.
  intros Hrun.
  destruct (run_without_ids evs (mount []) st out) as [[-> | ->] ->]; auto.
Qed.

(** After the cleanup only a request in flight can still settle. *)
Lemma run_after_unmount (evs : list event) :
  ∀ st st' out,
    clientRef st = false → fallbackTimer st = false → mounted st = false →
    run evs st = Some (st', out) →
    rawMap st' = rawMap st ∧ alertedIds st' = alertedIds st ∧
    connected st' = connected st ∧ currentId st' = currentId st ∧
    Forall is_console out.
Proof.
  induction evs as [|e evs IH]; intros st st' out Hclient Htimer Hmounted Hrun.
  { by simplify_eq/=. }
  cbn [run] in Hrun. destruct (enabled e st) eqn:Hen; [|done].
  destruct (handle e st) as [st1 out1] eqn:Hstep.
  destruct (run evs st1) as [[st2 out2]|] eqn:Hrest; [|done].
  simplify_eq/=.
  destruct e; cbn [enabled] in Hen; rewrite ?Hclient, ?Htimer, ?Hmounted in Hen;
    try done.
  cbn [handle] in Hstep. unfold on_save_alert_settled in Hstep. simplify_eq.
  destruct (IH (set_pendingSaves pred st) _ _ Hclient Htimer Hmounted Hrest)
    as (-> & -> & -> & -> & Hout).
  split_and!; try done.
  apply Forall_app. split; [|done]. destruct o; by repeat constructor.
Qed.

(** X25: once the view is left, no message, timer or press is handled any
    more: through every later run the registry, the marks, the connection
    flag and the selection stay as the cleanup left them, and only the
    console is written (by requests that were in flight). *)
Theorem nothing_is_handled_after_unmount
    (st : State) (evs : list event) (st' : State) (out : list effect) :
  run evs (on_unmount st).1 = Some (st', out) →
  rawMap st' = rawMap st ∧ alertedIds st' = alertedIds st ∧
  connected st' = connected st ∧ currentId st' = currentId st ∧
  Forall is_console out.
Proof. intros Hrun. by apply (run_after_unmount evs (teardown st)). Qed.
End session_more.

Section connection_more.
Context {rt : Runtime}.
Import P2.

Ltac crunch :=
  unfold on_message, on_alert, on_save_alert_settled, on_error, on_marker_click,
    publishPTZ, on_close, on_connect, on_fallback_timer, on_unmount;
  repeat case_match; intros; simplify_eq/=; try done.

(** No handler forgets a connect or sets the timer again. *)
Lemma connected_for_good (e : event) (st : State) :
  didConnect st = true → fallbackTimer st = false →
  didConnect (handle e st).1 = true ∧ fallbackTimer (handle e st).1 = false.
Proof. destruct e; cbn [handle]; crunch. Qed.

Lemma run_connected_for_good (evs : list event) :
  ∀ st st' out,
    didConnect st = true → fallbackTimer st = false →
    run evs st = Some (st', out) →
    didConnect st' = true ∧ fallbackTimer st' = false.
Proof.
  induction evs as [|e evs IH]; intros st st' out Hdid Htimer Hrun.
  { by simplify_eq/=. }
  cbn [run] in Hrun. destruct (enabled e st); [|done].
  destruct (connected_for_good e st Hdid Htimer) as [Hdid' Htimer'].
  destruct (handle e st) as [st1 out1].
  destruct (run evs st1) as [[st2 out2]|] eqn:Hrest; [|done].
  simplify_eq/=. eauto.
Qed.

(** X26: a connect subscribes to the two topics and asks for the table, and
    it ends the fallback for good: through every later run the timer is
    never pending again, and neither the timer callback nor an error nor a
    close changes the registry, be it empty or not. *)
Theorem no_fallback_after_a_connect
    (now : string) (evs : list event) (st st' : State) (out : list effect) :
  run (Connect now :: evs) st = Some (st', out) →
  take 2 out =
    [Subscribe ["Response/#"; "Notify"];
     Publish "GET/device" (JObj [("id", JStr "AA:BB:CC:11:22:33"); ("timestamp", JStr now)])] ∧
  didConnect st' = true ∧
  enabled FallbackTimer st' = false ∧
  (∀ e, may_fall_back e → rawMap (handle e st').1 = rawMap st').
Proof.
  intros Hrun. cbn [run handle] in Hrun. destruct (enabled _ st); [|done].
  unfold on_connect in Hrun.
  destruct (run evs _) as [[st2 out2]|] eqn:Hrest; [|done]. simplify_eq/=.
  apply run_connected_for_good in Hrest as [Hdid Htimer]; [|done..].
  split_and!; [done..|].
  intros e [-> | [-> | ->]]; cbn [handle].
  - unfold on_fallback_timer. cbn [clearTimeout didConnect]. by rewrite Hdid.
  - done.
  - unfold on_close. by rewrite Hdid.
Qed.

(** X27: a full-table response replaces the registry wholesale: afterwards
    the registry holds exactly the records of the response, whatever it
    held before; the marks and the selection are not touched; and the same
    response once more changes nothing. *)
Theorem snapshot_replaces_the_registry
    (hhmm topic : string) (props : list (string * jsval)) (st : State) :
  String.prefix "Response/" topic = true →
  NoDup props.*1 →
  let st1 := (on_message hhmm topic (Some (JObj props)) st).1 in
  (∀ key d, rawMap st1 !! key = Some d ↔ (key, d) ∈ props) ∧
  alertedIds st1 = alertedIds st ∧ currentId st1 = currentId st ∧
  (on_message hhmm topic (Some (JObj props)) st1).1 = st1.
Proof.
  intros Htopic Hkeys st1. subst st1. unfold on_message. rewrite Htopic.
  cbn [fst setRawMap rawMap alertedIds currentId own_props spread].
  split_and!; [|done..].
  intros key d. symmetry. by apply elem_of_list_to_map.
Qed.
End connection_more.

(** ** More on the example engine *)

Section list_more_examples.
Import Examples P1.
Existing Instance decimal_runtime.

Lemma new_device_offered_iff_unknown_witness :
  (on_message prompt "Notify"
     (Some (JObj [("cmd", JStr "new_device"); ("id", JNum (int 5)); ("status", JStr "GOOD")]))
     two_stakes).2 =
  [NewDeviceToast (int 5) "정상" "green" (JStr "")].
Proof.
  destruct (new_device_offered_iff_unknown prompt
              [("cmd", JStr "new_device"); ("id", JNum (int 5)); ("status", JStr "GOOD")]
              (int 5) two_stakes) as (_ & _ & Hoffer);
    [reflexivity | reflexivity | vm_compute; reflexivity |].
  apply Hoffer. apply Forall_forall.
  apply (bool_decide_unpack _). vm_compute. exact I.
Defined.

Lemma accepted_device_is_not_offered_again_witness :
  (on_message prompt "Notify"
     (Some (JObj [("cmd", JStr "new_device"); ("id", JNum (int 5)); ("status", JStr "GOOD")]))
     (commit (accept_new_device (int 5) "정상" "green" "" two_stakes))).2 = [].
Proof.
  rewrite (accepted_device_is_not_offered_again prompt
             [("cmd", JStr "new_device"); ("id", JNum (int 5)); ("status", JStr "GOOD")]
             (int 5) "정상" "green" "" two_stakes);
    [reflexivity | reflexivity | reflexivity | vm_compute; reflexivity].
Defined.

Lemma deleted_device_is_gone_and_offered_again_witness :
  items (commit (handleDelete (stake 2 "정상" "green") two_stakes)) =
    [stake 1 "정상" "green"] ∧
  (on_message prompt "Notify"
     (Some (JObj [("cmd", JStr "new_device"); ("idx", JStr "2"); ("status", JStr "BAD")]))
     (commit (handleDelete (stake 2 "정상" "green") two_stakes))).2 =
  [NewDeviceToast (int 2) "고장" "red" (JStr "")].
Proof.
  destruct (deleted_device_is_gone_and_offered_again prompt
              [("cmd", JStr "new_device"); ("idx", JStr "2"); ("status", JStr "BAD")]
              (stake 2 "정상" "green") two_stakes) as (_ & _ & Hoffer);
    [reflexivity | vm_compute; reflexivity | reflexivity |].
  split; [vm_compute; reflexivity | exact Hoffer].
Defined.

Lemma list_alert_toasts_and_respects_permission_witness :
  ToastSuccess (int 2) ∈
    (on_message denied "Notify"
       (Some (JObj [("cmd", JStr "alert"); ("id", JNum (int 2)); ("status", JStr "GOOD")]))
       two_stakes).2.
Proof.
  destruct (list_alert_toasts_and_respects_permission denied
              [("cmd", JStr "alert"); ("id", JNum (int 2)); ("status", JStr "GOOD")]
              (int 2) two_stakes) as (_ & Htoast & _);
    [reflexivity | reflexivity | vm_compute; reflexivity |].
  exact Htoast.
Defined.
End list_more_examples.

Section view_more_examples.
Import Examples P2.
Existing Instance decimal_runtime.

Lemma alert_touches_recent_obj_of_the_device_only_witness :
  let st1 := (on_message "23:21" "Notify" (Some (JObj hog_at_2)) live).1 in
  (∃ dprops',
     rawMap st1 !! "2" = Some (JObj dprops') ∧
     assoc "recent_obj" dprops' =
       JArr [JStr "2025-05-01T23:21:52"; JStr "hog"; JStr "https://cam/2.jpg"] ∧
     assoc "lat" dprops' = JStr "37.869436") ∧
  rawMap st1 !! "1" = rawMap live !! "1".
Proof.
  destruct (alert_touches_recent_obj_of_the_device_only "23:21" hog_at_2
              (spread (raw_device "40" "24.6" "70" "BAD" "37.869436" "127.742939"
                         ["2025-05-01T23:21:52"; "hog";
                          "https://thumb.mt.co.kr/06/2024/02/2024021621113371189_1.jpg/dims/optimize/"]))
              (int 2) (JStr "2025-05-01T23:21:52") (JStr "hog") (JStr "https://cam/2.jpg")
              [] "2025-05-01T23:21:52" "hog" "https://cam/2.jpg" live)
    as ((dprops' & Hrecord & Hrecent & Hframe) & Hothers & _);
    [reflexivity | vm_compute; reflexivity | reflexivity | reflexivity
    | reflexivity | reflexivity | reflexivity | vm_compute; reflexivity |].
  split.
  - exists dprops'. split_and!; [exact Hrecord | exact Hrecent |].
    rewrite (Hframe "lat") by discriminate. reflexivity.
  - apply (Hothers "1"). discriminate.
Defined.

(** A listed record whose latitude is the object [{"toString": 1}] makes the
    projection throw. *)
Example items_throw_on_a_listed_unconvertible_coordinate :
  items (<["3" := JObj [("lat", no_text); ("lng", JStr "127.742999")]]> three_devices)
        [int 1; int 3; int 4] = None.
Proof. vm_compute. reflexivity. Qed.

Lemma items_are_sorted_finite_and_listed_witness :
  ∃ its,
    items three_devices [int 3; int 1; int 4] = Some its ∧
    Sorted by_id its ∧
    Forall (λ it, id it ∈ [int 3; int 1; int 4]) its.
Proof.
  pose (its := from_option (λ l, l) [] (items three_devices [int 3; int 1; int 4])).
  assert (items three_devices [int 3; int 1; int 4] = Some its) as Hits
    by (vm_compute; reflexivity).
  exists its. split; [exact Hits|].
  destruct (items_are_sorted_finite_and_listed _ _ _ Hits) as (Hsorted & _ & Hall).
  split; [exact Hsorted|].
  eapply Forall_impl; [exact Hall|]. intros it (Hin & _). exact Hin.
Defined.

Lemma notify_drops_what_is_no_alert_witness :
  (on_message "23:21" "Notify"
     (Some (JObj [("cmd", JStr "status_update"); ("id", JNum (int 2)); ("status", JStr "BAD")]))
     live).1 = live ∧
  (on_message "23:21" "Notify"
     (Some (JObj [("cmd", JStr "status_update"); ("id", JNum (int 2)); ("status", JStr "BAD")]))
     live).2 = [ConsoleLog "payload"].
Proof.
  destruct (notify_drops_what_is_no_alert "23:21"
              (JObj [("cmd", JStr "status_update"); ("id", JNum (int 2));
                     ("status", JStr "BAD")]) live) as (Hstate & _ & Hlog).
  - intros props [= <-]. left. discriminate.
  - split; [exact Hstate|]. apply Hlog. intros props [= <-]. discriminate.
Defined.

Lemma no_ids_no_session_witness :
  ∃ st,
    run [ClosePanel; Unmount] (mount []) = Some (st, []) ∧
    rawMap st = ∅ ∧ clientRef st = false.
Proof.
  pose (st := from_option fst (mount []) (run [ClosePanel; Unmount] (mount []))).
  assert (run [ClosePanel; Unmount] (mount []) = Some (st, [])) as Hrun
    by (vm_compute; reflexivity).
  exists st. split; [exact Hrun|].
  destruct (no_ids_no_session _ _ _ Hrun) as (Hraw & _ & _ & Hclient & _).
  split; [exact Hraw | exact Hclient].
Defined.

(** The view with the alert for device 2 just handled, its request in
    flight. *)
Lemma nothing_is_handled_after_unmount_witness :
  let st := (on_message "23:21" "Notify" (Some (JObj hog_at_2)) live).1 in
  ∃ st',
    run [SaveAlertSettled NetworkError] (on_unmount st).1 =
      Some (st', [ConsoleError "Network error while sending alert data:"]) ∧
    rawMap st' = rawMap st ∧ alertedIds st' = alertedIds st.
Proof.
  intros st.
  pose (st' := from_option fst (mount [])
                 (run [SaveAlertSettled NetworkError] (on_unmount st).1)).
  assert (run [SaveAlertSettled NetworkError] (on_unmount st).1 =
            Some (st', [ConsoleError "Network error while sending alert data:"])) as Hrun
    by (vm_compute; reflexivity).
  exists st'. split; [exact Hrun|].
  destruct (nothing_is_handled_after_unmount _ _ _ _ Hrun) as (Hraw & Hmarks & _).
  split; [exact Hraw | exact Hmarks].
Defined.

Lemma no_fallback_after_a_connect_witness :
  ∃ st' out,
    run [Connect "23:20:00"; Close; TransportError] (mount [int 1]) = Some (st', out) ∧
    didConnect st' = true ∧
    rawMap (handle Close st').1 = rawMap st'.
Proof.
  pose (r := run [Connect "23:20:00"; Close; TransportError] (mount [int 1])).
  pose (st' := from_option fst (mount []) r).
  pose (out := from_option snd [] r).
  assert (run [Connect "23:20:00"; Close; TransportError] (mount [int 1]) = Some (st', out))
    as Hrun by (vm_compute; reflexivity).
  exists st', out. split; [exact Hrun|].
  destruct (no_fallback_after_a_connect _ _ _ _ _ Hrun) as (_ & Hdid & _ & Hkeep).
  split; [exact Hdid|]. apply Hkeep. right. right. reflexivity.
Defined.

Lemma snapshot_replaces_the_registry_witness :
  let st1 := (on_message "23:20" "Response/AA:BB:CC:11:22:33"
                (Some (JObj [("7", raw_device "90" "20.0" "55" "GOOD" "37.1" "127.1" [])]))
                live).1 in
  (∀ key d, rawMap st1 !! key = Some d ↔
            (key, d) ∈ [("7", raw_device "90" "20.0" "55" "GOOD" "37.1" "127.1" [])]) ∧
  alertedIds st1 = alertedIds live.
Proof.
  destruct (snapshot_replaces_the_registry "23:20" "Response/AA:BB:CC:11:22:33"
              [("7", raw_device "90" "20.0" "55" "GOOD" "37.1" "127.1" [])] live)
    as (Hrecords & Hmarks & _); [reflexivity | |].
  - apply (bool_decide_unpack _). vm_compute. exact I.
  - split; [exact Hrecords | exact Hmarks].
Defined.
End view_more_examples.
